(** * Phone-Detector: camera enumeration and the detection loop

    A shallow embedding of [list_cameras.py] and [main.py].

    - Python [str] values are [string]s whose characters stand for the code
      points 0..255; the built-ins the two files use ([strip], [lower],
      [splitlines], [split], [in], [startswith], [endswith], [replace],
      [int], [str]) are modelled on that range.
    - Python [float] is the kernel's binary64 [float].
    - [dict]s are [gmap]s; Python's [None] is [None] of an [option].
    - The external services (OpenCV capture, the detector, the wall clock,
      the OS tools) are answers supplied by a world record; what the
      program does to the outside (console lines, capture calls, window
      calls) is recorded in a trace carried by the state.
    - Exceptions.  In [list_cameras.py] every external call answers with
      a value or with the exception it raises, of any class, an interrupt
      of the user included.  In [main.py] the exceptions are those of the
      detection loop itself: an interrupt of the user during [cap.read()],
      the inference or [waitKey], and the division of the frame-rate
      block.  A command line that [argparse] rejects, a model file that
      cannot be loaded and a detector whose results cannot be converted
      are outside the model: [main] starts from parsed arguments and a
      loaded detector. *)

From Stdlib Require Import ZArith NArith List String Ascii Bool Lia.
From Stdlib Require Import DecimalString Floats.
From stdpp Require Import base option list sorting gmap strings.

Local Open Scope string_scope.
Local Open Scope list_scope.
Local Open Scope Z_scope.

(** ** Python string built-ins *)

Module PyStr.

Definition code (c : ascii) : N := N_of_ascii c.

Definition between (lo hi : N) (c : ascii) : bool :=
  ((lo <=? code c) && (code c <=? hi))%N.

(** [str.isspace] on one character: what [str.strip()] removes. *)
Definition is_space (c : ascii) : bool :=
  between 9 13 c || between 28 32 c || (code c =? 133)%N || (code c =? 160)%N.

(** The line boundaries of [str.splitlines()]. *)
Definition is_linebreak (c : ascii) : bool :=
  between 10 13 c || between 28 30 c || (code c =? 133)%N.

(** The white space [int()] tolerates around a literal. *)
Definition is_int_space (c : ascii) : bool :=
  between 9 13 c || (code c =? 32)%N || (code c =? 133)%N || (code c =? 160)%N.

Definition is_empty (s : string) : bool :=
  match s with EmptyString => true | String _ _ => false end.

Fixpoint lstrip_by (sp : ascii -> bool) (s : string) : string :=
  match s with
  | EmptyString => EmptyString
  | String c s' => if sp c then lstrip_by sp s' else s
  end.

Fixpoint rstrip_by (sp : ascii -> bool) (s : string) : string :=
  match s with
  | EmptyString => EmptyString
  | String c s' =>
      let r := rstrip_by sp s' in
      if sp c && is_empty r then EmptyString else String c r
  end.

(** [s.strip()] *)
Definition strip (s : string) : string := rstrip_by is_space (lstrip_by is_space s).

Definition lower_char (c : ascii) : ascii :=
  if between 65 90 c || (between 192 222 c && negb (code c =? 215)%N)
  then ascii_of_N (code c + 32)
  else c.

(** [s.lower()] *)
Fixpoint lower (s : string) : string :=
  match s with
  | EmptyString => EmptyString
  | String c s' => String (lower_char c) (lower s')
  end.

(** [s.startswith(p)] *)
Definition startswith (s p : string) : bool := String.prefix p s.

(** [needle in s] *)
Fixpoint contains (needle s : string) : bool :=
  String.prefix needle s ||
  match s with
  | EmptyString => false
  | String _ s' => contains needle s'
  end.

(** [s.endswith(p)] *)
Fixpoint endswith (s p : string) : bool :=
  String.eqb s p ||
  match s with
  | EmptyString => false
  | String _ s' => endswith s' p
  end.

(** [s.replace(c, "")] for a one-character [c]. *)
Fixpoint remove_char (c : ascii) (s : string) : string :=
  match s with
  | EmptyString => EmptyString
  | String d s' => if Ascii.eqb c d then remove_char c s' else String d (remove_char c s')
  end.

(** [s.splitlines()]: a boundary closes the current line, ["\r\n"] is one
  boundary, and text after the last boundary is a line of its own. *)
Fixpoint splitlines (s : string) : list string :=
  match s with
  | EmptyString => []
  | String c s' =>
      if is_linebreak c then
        EmptyString ::
          match s' with
          | String c2 s'' =>
              if ((code c =? 13)%N && (code c2 =? 10)%N)%bool then splitlines s''
              else splitlines s'
          | EmptyString => splitlines s'
          end
      else
        match splitlines s' with
        | [] => [String c EmptyString]
        | l :: ls => String c l :: ls
        end
  end.

(** [s.split(sep)] for a non-empty [sep]: the first piece and the pieces
  after it.  [skip] counts the characters of a separator just matched
  that are still to be passed over. *)
Fixpoint split_go (sep : string) (skip : nat) (s : string) : string * list string :=
  match s with
  | EmptyString => (EmptyString, [])
  | String c s' =>
      match skip with
      | S k => split_go sep k s'
      | O =>
          if String.prefix sep s then
            (EmptyString,
             let '(h, t) := split_go sep (String.length sep - 1) s' in h :: t)
          else
            let '(h, t) := split_go sep 0 s' in (String c h, t)
      end
  end.

Definition split (sep s : string) : list string :=
  let '(h, t) := split_go sep 0 s in h :: t.

Definition digit_val (c : ascii) : option Z :=
  if between 48 57 c then Some (Z.of_N (code c) - 48) else None.

(** The digits of a decimal literal: one or more digits, single
  underscores allowed between two digits.  [prev] tells whether the
  previous character was a digit. *)
Fixpoint int_digits (acc : Z) (prev : bool) (s : string) : option Z :=
  match s with
  | EmptyString => if prev then Some acc else None
  | String c s' =>
      match digit_val c with
      | Some d => int_digits (10 * acc + d) true s'
      | None =>
          if (code c =? 95)%N && prev then int_digits acc false s' else None
      end
  end.

(** The number of digits of a literal, underscores left out. *)
Fixpoint count_digits (s : string) : Z :=
  match s with
  | EmptyString => 0
  | String c s' => (if between 48 57 c then 1 else 0) + count_digits s'
  end.

(** [sys.get_int_max_str_digits()], which the program leaves at the
  interpreter's default. *)
Definition max_str_digits : Z := 4300.

(** A decimal literal without sign: valid digits, and no more of them
  than the interpreter converts. *)
Definition int_literal (s : string) : option Z :=
  match int_digits 0 false s with
  | Some n => if max_str_digits <? count_digits s then None else Some n
  | None => None
  end.

(** [int(s)]: [None] stands for [ValueError], which the interpreter
  raises for a text that is no literal and for a literal of more than
  [max_str_digits] digits. *)
Definition int (s : string) : option Z :=
  let t := rstrip_by is_int_space (lstrip_by is_int_space s) in
  match t with
  | String c r =>
      if (code c =? 43)%N then int_literal r
      else if (code c =? 45)%N then Z.opp <$> int_literal r
      else int_literal t
  | EmptyString => None
  end.

(** [str(n)] for an [int] *)
Definition str (n : Z) : string := NilZero.string_of_int (Z.to_int n).

Definition TAB : string := String (ascii_of_N 9) EmptyString.
Definition LF : string := String (ascii_of_N 10) EmptyString.
Definition CR : string := String (ascii_of_N 13) EmptyString.

End PyStr.

(** ** Exceptions and a state-and-error monad *)

Inductive exc_class :=
| ImportError | ValueError | IndexError | OSError | OtherError
| ZeroDivisionError | KeyboardInterrupt.

(** [issubclass(c, Exception)]: [KeyboardInterrupt] derives from
    [BaseException] only. *)
Definition is_Exception (c : exc_class) : bool :=
  match c with KeyboardInterrupt => false | _ => true end.

Definition exc_class_eqb (a b : exc_class) : bool :=
  match a, b with
  | ImportError, ImportError | ValueError, ValueError | IndexError, IndexError
  | OSError, OSError | OtherError, OtherError
  | ZeroDivisionError, ZeroDivisionError | KeyboardInterrupt, KeyboardInterrupt => true
  | _, _ => false
  end.

Record exn := Exn { exc : exc_class; exc_msg : string }.

(** A computation over a mutable state [S] that returns an [A] or raises.
    The state survives a raise: what was mutated or printed before the
    exception stays mutated and printed. *)
Definition M (S A : Type) : Type := S -> (exn + A) * S.

Module MonadM.
Section Ops.
Context {S : Type}.

Definition pure {A} (a : A) : M S A := fun s => (inr a, s).

Definition bind {A B} (m : M S A) (k : A -> M S B) : M S B :=
  fun s => match m s with
           | (inr a, s') => k a s'
           | (inl e, s') => (inl e, s')
           end.

Definition raise {A} (e : exn) : M S A := fun s => (inl e, s).

Definition get : M S S := fun s => (inr s, s).

Definition modify (f : S -> S) : M S unit := fun s => (inr tt, f s).

(** [try: body  except <classes accepted by catches> as e: handler e] *)
Definition try_except {A} (body : M S A) (catches : exc_class -> bool)
           (handler : exn -> M S A) : M S A :=
  fun s => match body s with
           | (inl e, s') => if catches (exc e) then handler e s' else (inl e, s')
           | r => r
           end.

(** [try: body  finally: fin]: [fin] runs on every exit of [body]; an
exception of [body] is raised again after it unless [fin] raises. *)
Definition try_finally {A} (body : M S A) (fin : M S unit) : M S A :=
  fun s => match body s with
           | (r, s') =>
               match fin s' with
               | (inr _, s'') => (r, s'')
               | (inl e, s'') => (inl e, s'')
               end
           end.

(** [for x in l: body x] *)
Fixpoint for_each {A} (l : list A) (body : A -> M S unit) : M S unit :=
  match l with
  | [] => pure tt
  | x :: l' => bind (body x) (fun _ => for_each l' body)
  end.

(** An external call: it answers, or raises the exception it is given. *)
Definition call {A} (r : exn + A) : M S A :=
  match r with
  | inl e => raise e
  | inr a => pure a
  end.

(** A call that answers nothing: it returns, or raises. *)
Definition attempt (fault : option exn) : M S unit :=
  match fault with
  | Some e => raise e
  | None => pure tt
  end.
End Ops.
End MonadM.
Import MonadM.

Declare Scope py_scope.
Delimit Scope py_scope with py.
Notation "'let*' x ':=' c1 'in' c2" := (bind c1 (fun x => c2))
  (at level 10, x pattern, c1 at level 100, c2 at level 200) : py_scope.
Notation "c1 ';;;' c2" := (bind c1 (fun _ => c2))
  (at level 100, c2 at level 200, right associativity) : py_scope.

(** [enumerate(l)] *)
Definition enumerate {A} (l : list A) : list (Z * A) :=
  zip (seqZ 0 (Z.of_nat (length l))) l.

(** ** list_cameras.py *)

Module ListCameras.
Import PyStr.

(** *** [list_camera_indexes] *)

(** The capture devices: whether [cv2.VideoCapture(i)] yields an opened
  handle, and whether the one [read()] on it yields a frame. *)
Record Cameras := { opens : Z -> bool; reads : Z -> bool }.

(** The calls made on capture handles; the handle created for index [i]
  is identified by [i]. *)
Inductive CapEvent :=
  | VideoCapture (i : Z) (opened : bool)
  | Read (i : Z) (ret : bool)
  | Release (i : Z).

(** The body of [for i in range(max_tested)]. *)
Definition probe (w : Cameras) (acc : list Z * list CapEvent) (i : Z)
  : list Z * list CapEvent :=
  let '(indexes, tr) := acc in
  let opened := opens w i in
  let tr := tr ++ [VideoCapture i opened] in
  if opened then
    let ret := reads w i in
    let tr := tr ++ [Read i ret] in
    let indexes := if ret then indexes ++ [i] else indexes in
    (indexes, tr ++ [Release i])
  else (indexes, tr).

(** [range(n)] *)
Definition range (n : Z) : list Z := seqZ 0 n.

Definition probe_loop (w : Cameras) (idxs : list Z) : list Z * list CapEvent :=
  fold_left (probe w) idxs ([], []).

Definition list_camera_indexes_run (w : Cameras) (max_tested : Z)
  : list Z * list CapEvent :=
  probe_loop w (range max_tested).

Definition list_camera_indexes (w : Cameras) (max_tested : Z) : list Z :=
  fst (list_camera_indexes_run w max_tested).

(** The definitions above are the function when each capture call
  returns.  The function has no [try]: when a call raises, it ends
  there.  The calls that can raise, and what they raise: [faults i c] is
  the exception, if any, with which call [c] on the handle of index [i]
  ends instead of returning ([isOpened()] only reads a flag). *)
Inductive CapCall := OnVideoCapture | OnRead | OnRelease.

Definition Faults := Z -> CapCall -> option exn.

(** Every capture call returns. *)
Definition no_faults : Faults := fun _ _ => None.

Definition record (e : CapEvent) : M (list Z * list CapEvent) unit :=
  modify (fun '(indexes, tr) => (indexes, tr ++ [e])).

Definition append_index (i : Z) : M (list Z * list CapEvent) unit :=
  modify (fun '(indexes, tr) => (indexes ++ [i], tr)).

Local Open Scope py_scope.

(** The body of [for i in range(max_tested)], calls that raise included. *)
Definition probe_on (w : Cameras) (faults : Faults) (i : Z)
  : M (list Z * list CapEvent) unit :=
  attempt (faults i OnVideoCapture) ;;;
  record (VideoCapture i (opens w i)) ;;;
  if opens w i then
    attempt (faults i OnRead) ;;;
    record (Read i (reads w i)) ;;;
    (if reads w i then append_index i else pure tt) ;;;
    attempt (faults i OnRelease) ;;;
    record (Release i)
  else pure tt.

(** What the function returns or raises, and the capture calls that
  returned. *)
Definition list_camera_indexes_on (w : Cameras) (faults : Faults) (max_tested : Z)
  : (exn + list Z) * list CapEvent :=
  match for_each (range max_tested) (probe_on w faults) ([], []) with
  | (inr _, (indexes, tr)) => (inr indexes, tr)
  | (inl e, (_, tr)) => (inl e, tr)
  end.

(** *** [get_camera_names] *)

(** The host: the platform name and the answers of the tools.  An [inl]
  is the exception the operation raises, whatever its class: an
  [ImportError] of the import, an [OSError] of a tool that cannot be
  started, the [KeyboardInterrupt] of a user who interrupts the call. *)
Record Host := {
  system : string;
  (** [from pygrabber.dshow_graph import FilterGraph] *)
  pygrabber_import : exn + unit;
  (** [FilterGraph().get_input_devices()] *)
  input_devices : exn + list string;
  (** [subprocess.run(argv, capture_output=True, text=True).stdout] *)
  subprocess_run : list string -> exn + string
}.

Record NState := {
  names : gmap Z (option string);
  dev_name : option string;
  out : list string
  }.

Definition init : NState := {| names := ∅; dev_name := None; out := [] |}.

Definition set_name (k : Z) (v : option string) (s : NState) : NState :=
  {| names := <[k := v]> (names s); dev_name := dev_name s; out := out s |}.

Definition set_dev_name (v : option string) (s : NState) : NState :=
  {| names := names s; dev_name := v; out := out s |}.

Definition print (line : string) : M NState unit :=
  modify (fun s => {| names := names s; dev_name := dev_name s; out := out s ++ [line] |}).

(** [l[i]] *)
Definition item {S A} (l : list A) (i : nat) : M S A :=
  match l !! i with
  | Some a => pure a
  | None => raise (Exn IndexError "list index out of range")
  end.

(** [int(s)] *)
Definition int_of {S} (s : string) : M S Z :=
  match PyStr.int s with
  | Some n => pure n
  | None => raise (Exn ValueError "invalid literal for int() with base 10")
  end.

Definition windows_branch (h : Host) : M NState unit :=
  try_except
    (call (pygrabber_import h) ;;;
     let* devices := call (input_devices h) in
     for_each (enumerate devices) (fun '(i, name) => modify (set_name i (Some name))))
    (exc_class_eqb ImportError)
    (fun _ => print "(Tip: install pygrabber for camera names: pip install pygrabber)").

(** The body of [for line in lines] of the Linux branch. *)
Definition linux_line (line : string) : M NState unit :=
  if negb (startswith line TAB) then
    modify (set_dev_name (Some (strip line)))
  else
    let dev_path := strip line in
    if contains "/dev/video" dev_path then
      try_except
        (let* seg := item (split "video" dev_path) 1 in
         let* idx := int_of seg in
         let* s := get in
         modify (set_name idx (dev_name s)))
        (exc_class_eqb ValueError)
        (fun _ => pure tt)
    else pure tt.

Definition linux_branch (h : Host) : M NState unit :=
  let* stdout := call (subprocess_run h ["v4l2-ctl"; "--list-devices"]) in
  let lines := splitlines (strip stdout) in
  modify (set_dev_name None) ;;;
  for_each lines linux_line.

Definition darwin_branch (h : Host) : M NState unit :=
  let* stdout := call (subprocess_run h ["system_profiler"; "SPCameraDataType"]) in
  let lines := splitlines stdout in
  let camera_names :=
    map strip (List.filter (fun l => endswith (strip l) "Camera:") lines) in
  for_each (enumerate camera_names)
    (fun '(i, name) => modify (set_name i (Some (remove_char ":" name)))).

Definition get_camera_names_body (h : Host) : M NState (gmap Z (option string)) :=
  try_except
    (if String.eqb (system h) "Windows" then windows_branch h
     else if String.eqb (system h) "Linux" then linux_branch h
     else if String.eqb (system h) "Darwin" then darwin_branch h
     else pure tt)
    is_Exception
    (fun e => print ("Could not read camera names: " +:+ exc_msg e)) ;;;
  let* s := get in
  pure (names s).

Definition get_camera_names (h : Host) : (exn + gmap Z (option string)) * NState :=
  get_camera_names_body h init.

End ListCameras.

(** ** main.py *)

Module PhoneDetector.
Import PyStr.

(** The parsed command line: [--cam], [--conf], [--model], and
  [show = not --no-show]. *)
Record Args := { cam : Z; conf : float; model : string; show : bool }.

(** One element of [results.boxes], after the conversions of the loop:
  [int(box.cls...)], [float(box.conf...)], and the corners of
  [box.xyxy] as [draw_box] truncates them to integers. *)
Record Box := { box_cls : Z; box_conf : float; box_xyxy : Z * Z * Z * Z }.

(** What has been drawn on a frame, in drawing order.  The four OpenCV
  calls of [draw_box] are one [BoxOverlay]. *)
Inductive Overlay :=
  | BoxOverlay (xyxy : Z * Z * Z * Z) (label : string) (score : float)
  | StatusText (text : string) (detected : bool)
  | FpsText (fps : float).

Record Frame := { image : N; overlays : list Overlay }.

Inductive Event :=
  | Print (line : string)
  | Open (index : Z) (opened : bool)
  | Read (ret : bool)
  | Release
  | ImShow (frame : Frame)
  | DestroyAllWindows.

(** What the surroundings answer outside the loop: [model.names] of the
  loaded detector, [cap.isOpened()], and [time.time()] just before the
  loop. *)
Record World := { names : gmap Z string; opened : bool; t0 : float }.

(** The external calls of one iteration inside which an interrupt signal
  can arrive. *)
Inductive Call := InRead | InModel | InWaitKey.

Definition call_eqb (a b : Call) : bool :=
  match a, b with
  | InRead, InRead | InModel, InModel | InWaitKey, InWaitKey => true
  | _, _ => false
  end.

(** What the surroundings answer during one iteration of the loop:
  [cap.read()], the detections of the model on that frame,
  [time.time()] (asked on every tenth frame only), [cv2.waitKey(1)]
  (asked only when the preview is shown), and whether the user
  interrupts the program during one of the calls. *)
Record Tick := {
  sigint : option Call;
  read_ret : bool;
  read_image : N;
  boxes : list Box;
  now : float;
  key : Z
  }.

Record LState := { fps_time : float; frame_count : Z; trace : list Event }.

Definition emit (e : Event) : M LState unit :=
  modify (fun s => {| fps_time := fps_time s; frame_count := frame_count s;
                      trace := trace s ++ [e] |}).

Definition print (line : string) : M LState unit := emit (Print line).

Definition set_fps_time (t : float) (s : LState) : LState :=
  {| fps_time := t; frame_count := frame_count s; trace := trace s |}.

Definition set_frame_count (n : Z) (s : LState) : LState :=
  {| fps_time := fps_time s; frame_count := n; trace := trace s |}.

Definition interruptible (t : Tick) (c : Call) : M LState unit :=
  match sigint t with
  | Some c' => if call_eqb c c' then raise (Exn KeyboardInterrupt "") else pure tt
  | None => pure tt
  end.

(** [x / y] on floats *)
Definition truediv {S} (x y : float) : M S float :=
  if (y =? 0)%float then raise (Exn ZeroDivisionError "float division by zero")
  else pure (x / y)%float.

Definition draw (o : Overlay) (frame : Frame) : Frame :=
  {| image := image frame; overlays := overlays frame ++ [o] |}.

Definition draw_box (frame : Frame) (xyxy : Z * Z * Z * Z) (label : string) (score : float)
  : Frame :=
  draw (BoxOverlay xyxy label score) frame.

(** [model.names.get(cls_idx, str(cls_idx))] *)
Definition resolve_name (w : World) (cls_idx : Z) : string :=
  default (str cls_idx) (names w !! cls_idx).

(** The test of line 66. *)
Definition is_phone (name : string) : bool :=
  contains "phone" (lower name) || contains "cell phone" (lower name).

(** The body of [for box in results.boxes]. *)
Definition scan_box (w : World) (acc : Frame * bool) (box : Box) : Frame * bool :=
  let '(frame, detected_phone) := acc in
  let cls_idx := box_cls box in
  let score := box_conf box in
  let name := resolve_name w cls_idx in
  if is_phone name then (draw_box frame (box_xyxy box) name score, true)
  else (frame, detected_phone).

Definition scan_boxes (w : World) (frame : Frame) (results : list Box) : Frame * bool :=
  fold_left (scan_box w) results (frame, false).

Definition status_of (detected_phone : bool) : string :=
  if detected_phone then "PHONE DETECTED" else "no phone".

Local Open Scope py_scope.

(** [ret, frame = cap.read()] *)
Definition cap_read (t : Tick) : M LState (bool * Frame) :=
  interruptible t InRead ;;;
  emit (Read (read_ret t)) ;;;
  pure (read_ret t, {| image := read_image t; overlays := [] |}).

(** Lines 76 to 80: the frame-rate block. *)
Definition update_fps (t : Tick) (frame : Frame) : M LState Frame :=
  let* s := get in
  if frame_count s mod 10 =? 0 then
    let now := now t in
    let* fps := truediv 10%float (now - fps_time s)%float in
    modify (set_fps_time now) ;;;
    pure (draw (FpsText fps) frame)
  else pure frame.

(** Lines 54 to 80: inference, the scan of the detections, the status
  text and the frame rate. *)
Definition annotate (w : World) (t : Tick) (frame : Frame) : M LState (Frame * string) :=
  interruptible t InModel ;;;
  let results := boxes t in
  let '(frame, detected_phone) := scan_boxes w frame results in
  let status_text := status_of detected_phone in
  let frame := draw (StatusText status_text detected_phone) frame in
  let* frame := update_fps t frame in
  pure (frame, status_text).

(** One iteration of [while True]; [false] is a [break].  The exceptions of
  an iteration are the interrupt of the user during one of the three calls
  that wait ([cap.read()], the inference, [waitKey]) and the division of
  the frame-rate block; the detections come converted, as [Box]es. *)
Definition loop_body (args : Args) (w : World) (t : Tick) : M LState bool :=
  let* (ret, frame) := cap_read t in
  if negb ret then
    print "Failed to read frame from camera." ;;; pure false
  else
    modify (fun s => set_frame_count (frame_count s + 1) s) ;;;
    let* (frame, status_text) := annotate w t frame in
    if show args then
      emit (ImShow frame) ;;;
      interruptible t InWaitKey ;;;
      if Z.land (key t) 255 =? 113 then pure false else pure true
    else
      let* s := get in
      print ("[" +:+ str (frame_count s) +:+ "] " +:+ status_text) ;;;
      pure true.

(** How far a run over a finite script of iterations got: the loop has
  been left, or it has used up the script and waits for its next frame. *)
Inductive LoopExit := Left | Running.

Fixpoint while_true (args : Args) (w : World) (ticks : list Tick) : M LState LoopExit :=
  match ticks with
  | [] => pure Running
  | t :: ticks' =>
      let* continue := loop_body args w t in
      if continue then while_true args w ticks' else pure Left
  end.

Definition cleanup : M LState unit :=
  emit Release ;;; emit DestroyAllWindows ;;; print "Exiting.".

(** The [try] statement of lines 45 to 96.  While the loop is still
  running nothing of the handlers has happened yet. *)
Definition try_loop (args : Args) (w : World) (ticks : list Tick) : M LState LoopExit :=
  fun s =>
    match while_true args w ticks s with
    | (inr Running, s') => (inr Running, s')
    | _ =>
        try_finally
          (try_except (while_true args w ticks)
             (exc_class_eqb KeyboardInterrupt)
             (fun _ => print "Interrupted by user." ;;; pure Left))
          cleanup s
    end.

(** [main] from line 31 on, for arguments that are parsed and a detector
  that [YOLO(args.model)] has loaded. *)
Definition main_body (args : Args) (w : World) (ticks : list Tick) : M LState LoopExit :=
  print ("Loading model: " +:+ model args) ;;;
  emit (Open (cam args) (opened w)) ;;;
  if negb (opened w) then
    print ("ERROR: Cannot open camera index " +:+ str (cam args)) ;;; pure Left
  else
    print "Camera opened. Press 'q' to quit." ;;;
    modify (set_fps_time (t0 w)) ;;;
    modify (set_frame_count 0) ;;;
    try_loop args w ticks.

Inductive Outcome := StillRunning | Returned | Raised (e : exn).

Definition outcome_of (r : exn + LoopExit) : Outcome :=
  match r with
  | inl e => Raised e
  | inr Running => StillRunning
  | inr Left => Returned
  end.

Definition start : LState := {| fps_time := 0%float; frame_count := 0; trace := [] |}.

Definition main (args : Args) (w : World) (ticks : list Tick) : Outcome * LState :=
  let '(r, s) := main_body args w ticks start in (outcome_of r, s).

(** The console: the printed lines of a trace, in order. *)
Definition stdout (tr : list Event) : list string :=
  omap (fun e => match e with Print l => Some l | _ => None end) tr.

End PhoneDetector.

(** ** list_cameras.py: the block run as a script *)

Module ListCamerasScript.
Import PyStr ListCameras.

(** [f"{cam_name}"] for a value of the mapping or the placeholder. *)
Definition format_name (v : option string) : string :=
  match v with
  | Some name => name
  | None => "None"
  end.

(** [names.get(idx, "(unknown name)")] *)
Definition cam_name (names : gmap Z (option string)) (idx : Z) : option string :=
  default (Some "(unknown name)") (names !! idx).

(** Lines 74 to 80: what is printed for the indexes found. *)
Definition report (available : list Z) (names : gmap Z (option string)) : list string :=
  match available with
  | [] => ["No cameras found."]
  | _ =>
      "Detected cameras:" ::
      map (fun idx => "  Index " +:+ str idx +:+ ": " +:+ format_name (cam_name names idx))
          available
  end.

(** Lines 70 to 80: how a run of the script ends, and its console lines in
order.  [list_camera_indexes()] is called with its default
[max_tested=10]; the block has no [try], so an exception of one of the two
calls ends the run there. *)
Definition script (w : Cameras) (faults : Faults) (h : Host) : (exn + unit) * list string :=
  match list_camera_indexes_on w faults 10 with
  | (inl e, _) => (inl e, [])
  | (inr available, _) =>
      match get_camera_names h with
      | (inr names, s) => (inr tt, out s ++ report available names)
      | (inl e, s) => (inl e, out s)
      end
  end.

End ListCamerasScript.

(** ** Vocabulary of the statements about the detection loop *)

Module LoopSpec.
Import PyStr PhoneDetector.

(** The resolved class name of a detection, lowercased, contains "phone". *)
Definition phone_like (w : World) (b : Box) : bool :=
  contains "phone" (lower (resolve_name w (box_cls b))).

(** The box [draw_box] draws for a detection. *)
Definition box_overlay (w : World) (b : Box) : Overlay :=
  BoxOverlay (box_xyxy b) (resolve_name w (box_cls b)) (box_conf b).

(** Some detection of the frame is phone-like. *)
Definition detected (w : World) (t : Tick) : bool := existsb (phone_like w) (boxes t).

(** The frame of an iteration after the boxes and the status text. *)
Definition scanned (w : World) (t : Tick) : Frame :=
  {| image := read_image t;
     overlays := map (box_overlay w) (List.filter (phone_like w) (boxes t)) ++
                 [StatusText (status_of (detected w t)) (detected w t)] |}.

(** The console line of frame [n]. *)
Definition status_line (n : Z) (d : bool) : string :=
  "[" +:+ str n +:+ "] " +:+ status_of d.

(** The console lines of the frames [n+1], [n+2], ... *)
Fixpoint status_lines (w : World) (n : Z) (ticks : list Tick) : list string :=
  match ticks with
  | [] => []
  | t :: ticks' => status_line (n + 1) (detected w t) :: status_lines w (n + 1) ticks'
  end.

(** The timer baseline after the frames [n+1], [n+2], ...: the clock
reading of the last of them whose count is a multiple of 10, and [base]
if there is none. *)
Fixpoint baseline (base : float) (n : Z) (ticks : list Tick) : float :=
  match ticks with
  | [] => base
  | t :: ticks' =>
      baseline (if (n + 1) mod 10 =? 0 then now t else base) (n + 1) ticks'
  end.

(** The frames [n+1], [n+2], ... as they are displayed: the frame-rate
text is on the frames whose count is a multiple of 10, and shows 10
divided by the time since the baseline of that moment. *)
Fixpoint displayed (w : World) (base : float) (n : Z) (ticks : list Tick) : list Frame :=
  match ticks with
  | [] => []
  | t :: ticks' =>
      if (n + 1) mod 10 =? 0 then
        draw (FpsText (10 / (now t - base))%float) (scanned w t) ::
        displayed w (now t) (n + 1) ticks'
      else scanned w t :: displayed w base (n + 1) ticks'
  end.

(** The frames a trace has shown, the successful reads it has made, and
the status lines among console lines. *)
Definition shown (tr : list Event) : list Frame :=
  omap (fun e => match e with ImShow f => Some f | _ => None end) tr.

Definition frames_read (tr : list Event) : nat :=
  length (List.filter (fun e => match e with Read true => true | _ => false end) tr).

Definition is_status_line (line : string) : bool :=
  contains "PHONE DETECTED" line || contains "no phone" line.

(** The state in which the loop is entered. *)
Definition loop_start (args : Args) (w : World) : LState :=
  {| fps_time := t0 w; frame_count := 0;
     trace := [Print ("Loading model: " +:+ model args); Open (cam args) true;
               Print "Camera opened. Press 'q' to quit."] |}.

(** A frame without interrupt on which [dets] are detected, with clock
reading [clock] and no key pressed. *)
Definition frame_tick (dets : list Box) (clock : float) : Tick :=
  {| sigint := None; read_ret := true; read_image := 0%N; boxes := dets;
     now := clock; key := -1 |}.

Definition default_args (show_preview : bool) : Args :=
  {| cam := 0; conf := 0x1.6666666666666p-2%float; model := "yolov8n.pt";
     show := show_preview |}.

(** A detector with two of the COCO names, and a camera that opens. *)
Definition coco_world : World :=
  {| names := {[ 0 := "person"; 67 := "cell phone" ]}; opened := true; t0 := 100%float |}.

Definition phone_box : Box :=
  {| box_cls := 67; box_conf := 0.75%float; box_xyxy := (10, 20, 110, 220) |}.

Definition person_box : Box :=
  {| box_cls := 0; box_conf := 0.5%float; box_xyxy := (0, 0, 50, 100) |}.

(** Frames [1..n] one second apart, a phone on frames 5 and 17 only. *)
Definition session (n : Z) : list Tick :=
  map (fun k => frame_tick (if (k =? 5) || (k =? 17) then [person_box; phone_box]
                            else [person_box])
                  (100 + PrimFloat.of_uint63 (Uint63.of_Z k))%float)
      (seqZ 1 n).

(** A frame that is read, during whose inference the user interrupts. *)
Definition interrupted_frame : Tick :=
  {| sigint := Some InModel; read_ret := true; read_image := 0%N; boxes := [person_box];
     now := 101%float; key := -1 |}.

(** Ten frames during which the wall clock stays at the reading taken
before the loop. *)
Definition stalled_session : list Tick :=
  map (fun _ => frame_tick [person_box] 100%float) (seqZ 1 10).

(** The same detector with a camera that does not open. *)
Definition closed_world : World :=
  {| names := names coco_world; opened := false; t0 := 100%float |}.
End LoopSpec.

(** ** Vocabulary of the statements about [list_camera_indexes] *)

Module CameraSpec.
Import ListCameras.

(** An index is usable when the handle opens and its one read succeeds. *)
Definition usable (w : Cameras) (i : Z) : Prop :=
  opens w i = true /\ reads w i = true.

#[global] Instance usable_dec w i : Decision (usable w i).
Proof. unfold usable. apply _. Defined.

(** The capture calls of the probe of one index. *)
Definition probe_events (w : Cameras) (i : Z) : list CapEvent :=
  VideoCapture i (opens w i) ::
  (if opens w i then [Read i (reads w i); Release i] else []).

(** Replaying a trace: the handles that are not released yet.  With
  [opened_only] the handles whose open attempt failed are left out. *)
Definition track (opened_only : bool) (live : list Z) (e : CapEvent) : list Z :=
  match e with
  | VideoCapture i o => if o || negb opened_only then live ++ [i] else live
  | Read _ _ => live
  | Release i => List.filter (fun j => negb (j =? i)) live
  end.

(** Handles created and not released. *)
Definition unreleased (tr : list CapEvent) : list Z := fold_left (track false) tr [].

(** Handles opened with success and not released. *)
Definition holding (tr : list CapEvent) : list Z := fold_left (track true) tr [].

(** The probe of index [i] makes no call that raises. *)
Definition quiet (w : Cameras) (faults : Faults) (i : Z) : Prop :=
  faults i OnVideoCapture = None /\
  (opens w i = true -> faults i OnRead = None /\ faults i OnRelease = None).

(** The first call of the probe of index [i] that raises, raises [e]. *)
Definition raises_at (w : Cameras) (faults : Faults) (i : Z) (e : exn) : Prop :=
  faults i OnVideoCapture = Some e \/
  faults i OnVideoCapture = None /\ opens w i = true /\
  (faults i OnRead = Some e \/ faults i OnRead = None /\ faults i OnRelease = Some e).

(** The user interrupts the program during the read on the handle of
index [k]. *)
Definition interrupted_read (k : Z) : Faults :=
  fun i c =>
    match c with
    | OnRead => if i =? k then Some (Exn KeyboardInterrupt "") else None
    | _ => None
    end.

(** No camera answers. *)
Definition no_cameras : Cameras := {| opens := fun _ => false; reads := fun _ => false |}.

(** Cameras 0 and 2 work, camera 1 opens but yields no frame. *)
Definition three_cameras : Cameras :=
  {| opens := fun i => i <? 3; reads := fun i => negb (i =? 1) |}.
End CameraSpec.

(** ** Vocabulary of the statements about [get_camera_names] *)

Module NamesSpec.
Import PyStr ListCameras.

(** The index the Linux branch reads off a stripped device-path line, if
any: the line contains "/dev/video" and [int()] accepts the text
between the first and the second occurrence of "video". *)
Definition path_index (dev_path : string) : option Z :=
  if contains "/dev/video" dev_path then
    match split "video" dev_path with
    | _ :: seg :: _ => PyStr.int seg
    | _ => None
    end
  else None.

(** What one line of the tool's output does to the state of the Linux
branch. *)
Definition after_line (line : string) (s : NState) : NState :=
  if startswith line TAB then
    match path_index (strip line) with
    | Some idx => set_name idx (dev_name s) s
    | None => s
    end
  else set_dev_name (Some (strip line)) s.

(** All the characters of a text are decimal digits. *)
Fixpoint all_digits (s : string) : bool :=
  match s with
  | EmptyString => true
  | String c s' => between 48 57 c && all_digits s'
  end.

(** The number a text of decimal digits denotes, after the digits [acc]. *)
Fixpoint decimal (acc : Z) (s : string) : Z :=
  match s with
  | EmptyString => acc
  | String c s' => decimal (10 * acc + (Z.of_N (code c) - 48)) s'
  end.

(** [n] times the digit 7. *)
Fixpoint sevens (n : nat) : string :=
  match n with
  | O => EmptyString
  | S k => String "7" (sevens k)
  end.

(** A raise of the monad is one of the classes accepted by [P]. *)
Definition raises_within {S A} (P : exc_class -> bool) (m : M S A) : Prop :=
  forall s e s', m s = (inl e, s') -> P (exc e) = true.

(** The state carries a device name and every bound value is a string. *)
Definition named (s : NState) : Prop :=
  is_Some (dev_name s) /\ map_Forall (fun _ v => is_Some v) (names s).

(** The two notes [get_camera_names] can print. *)
Definition tip : string := "(Tip: install pygrabber for camera names: pip install pygrabber)".
Definition failure_note (msg : string) : string := "Could not read camera names: " +:+ msg.

(** The external call made for the platform of the host raises [e]. *)
Definition source_raises (h : Host) (e : exn) : Prop :=
  system h = "Windows" /\
    (pygrabber_import h = inl e \/
     pygrabber_import h = inr tt /\ input_devices h = inl e) \/
  system h = "Linux" /\ subprocess_run h ["v4l2-ctl"; "--list-devices"] = inl e \/
  system h = "Darwin" /\ subprocess_run h ["system_profiler"; "SPCameraDataType"] = inl e.

(** A Linux host whose [v4l2-ctl] prints [text]. *)
Definition linux_host (text : string) : Host :=
  {| system := "Linux";
     pygrabber_import := inl (Exn ImportError "No module named 'pygrabber'");
     input_devices := inl (Exn OSError "unavailable");
     subprocess_run := fun _ => inr text |}.

(** A Linux host on which the user interrupts the program while the tool
runs. *)
Definition interrupted_host : Host :=
  {| system := "Linux";
     pygrabber_import := inl (Exn ImportError "No module named 'pygrabber'");
     input_devices := inl (Exn OSError "unavailable");
     subprocess_run := fun _ => inl (Exn KeyboardInterrupt "") |}.
End NamesSpec.

(** ** Vocabulary of the further statements *)

Module RunSpec.
Import PyStr PhoneDetector LoopSpec.

(** The frame of an iteration entered in state [s], as it is annotated. *)
Definition frame_of (w : World) (t : Tick) (s : LState) : Frame :=
  if (frame_count s + 1) mod 10 =? 0
  then draw (FpsText (10 / (now t - fps_time s))%float) (scanned w t)
  else scanned w t.

Definition log (evs : list Event) (s : LState) : LState :=
  {| fps_time := fps_time s; frame_count := frame_count s; trace := trace s ++ evs |}.

Definition interrupted_in (c : Call) (t : Tick) : bool :=
  match sigint t with
  | Some c' => call_eqb c c'
  | None => false
  end.

(** The tenth-frame division of an iteration entered in state [s] fails. *)
Definition division_fails (t : Tick) (s : LState) : bool :=
  ((frame_count s + 1) mod 10 =? 0) && (now t - fps_time s =? 0)%float.

(** The state once the frame of an iteration is read and counted, and once
its frame-rate block is done. *)
Definition entered (s : LState) : LState :=
  set_frame_count (frame_count s + 1) (log [Read true] s).

Definition timed (t : Tick) (s : LState) : LState :=
  if (frame_count s + 1) mod 10 =? 0 then set_fps_time (now t) (entered s) else entered s.

(** One iteration, case by case. *)
Definition step (args : Args) (w : World) (t : Tick) (s : LState) : (exn + bool) * LState :=
  if interrupted_in InRead t then (inl (Exn KeyboardInterrupt ""), s)
  else if negb (read_ret t) then
    (inr false, log [Read false; Print "Failed to read frame from camera."] s)
  else if interrupted_in InModel t then (inl (Exn KeyboardInterrupt ""), entered s)
  else if division_fails t s then
    (inl (Exn ZeroDivisionError "float division by zero"), entered s)
  else if show args then
    if interrupted_in InWaitKey t then
      (inl (Exn KeyboardInterrupt ""), log [ImShow (frame_of w t s)] (timed t s))
    else
      (inr (negb (Z.land (key t) 255 =? 113)), log [ImShow (frame_of w t s)] (timed t s))
  else
    (inr true, log [Print (status_line (frame_count s + 1) (detected w t))] (timed t s)).

(** How [main] ends once an iteration has not asked for the next one. *)
Definition finish (r : exn + bool) (s : LState) : Outcome * LState :=
  match r with
  | inl e =>
      if exc_class_eqb KeyboardInterrupt (exc e) then
        (Returned,
         log [Print "Interrupted by user."; Release; DestroyAllWindows; Print "Exiting."] s)
      else (Raised e, log [Release; DestroyAllWindows; Print "Exiting."] s)
  | inr _ => (Returned, log [Release; DestroyAllWindows; Print "Exiting."] s)
  end.

(** The events an iteration can add to the trace. *)
Definition loop_event (e : Event) : bool :=
  match e with
  | Print _ | Read _ | ImShow _ => true
  | _ => false
  end.

Definition is_release (e : Event) : bool :=
  match e with Release => true | _ => false end.

Definition is_box (o : Overlay) : bool :=
  match o with BoxOverlay _ _ _ => true | _ => false end.

Definition still_running (o : Outcome) : bool :=
  match o with StillRunning => true | _ => false end.

(** The lines that can close the console of a run. *)
Definition closing_lines : list (list string) :=
  [ [];
    ["Failed to read frame from camera."; "Exiting."];
    ["Interrupted by user."; "Exiting."];
    ["Exiting."] ].

Definition with_key (k : Z) (t : Tick) : Tick :=
  {| sigint := sigint t; read_ret := read_ret t; read_image := read_image t;
     boxes := boxes t; now := now t; key := k |}.

End RunSpec.

(** ** Vocabulary of the further statements about list_cameras.py *)

Module ListSpec.
Import PyStr ListCameras NamesSpec.

(** The indexes for which a trace creates a handle, in order. *)
Definition created (tr : list CapEvent) : list Z :=
  omap (fun e => match e with VideoCapture i _ => Some i | _ => None end) tr.

(** The lines of the profiler's output that the macOS branch takes for
cameras. *)
Definition camera_lines (text : string) : list string :=
  List.filter (fun l => endswith (strip l) "Camera:") (splitlines text).

(** [names[k] = v0; names[k+1] = v1; ...] *)
Fixpoint bind_from (k : Z) (vals : list (option string)) (m : gmap Z (option string))
  : gmap Z (option string) :=
  match vals with
  | [] => m
  | v :: vals' => bind_from (k + 1) vals' (<[k := v]> m)
  end.

Definition indented (line : string) : bool := startswith line TAB.

(** The device name in force at line [k] of the Linux tool's output: the
stripped text of the last line before it that is not indented. *)
Definition header_before (lines : list string) (k : nat) : option string :=
  strip <$> last (List.filter (fun l => negb (indented l)) (take k lines)).

(** Line [k] binds index [idx], and no later line does. *)
Definition last_path_line (lines : list string) (idx : Z) (k : nat) : Prop :=
  (exists line, lines !! k = Some line /\ indented line = true /\
                path_index (strip line) = Some idx) /\
  (forall k' line', (k < k')%nat -> lines !! k' = Some line' -> indented line' = true ->
                    path_index (strip line') <> Some idx).

(** The state of the Linux branch after the lines [lines]. *)
Definition linux_state (lines : list string) : NState :=
  fold_left (fun st l => after_line l st) lines (set_dev_name None init).

(** A Windows host whose device graph lists [devices]. *)
Definition windows_host (devices : list string) : Host :=
  {| system := "Windows";
     pygrabber_import := inr tt;
     input_devices := inr devices;
     subprocess_run := fun _ => inl (Exn OSError "unavailable") |}.

(** A macOS host whose [system_profiler] prints [text]. *)
Definition darwin_host (text : string) : Host :=
  {| system := "Darwin";
     pygrabber_import := inl (Exn ImportError "No module named 'pygrabber'");
     input_devices := inl (Exn OSError "unavailable");
     subprocess_run := fun _ => inr text |}.

(** The head of the profiler's output on a machine with one camera. *)
Definition profiler_text : string :=
  "Camera:" +:+ LF +:+ LF +:+ "    FaceTime HD Camera:" +:+ LF +:+ LF +:+
  "      Model ID: UVC Camera VendorID_1452 ProductID_34068" +:+ LF.

(** Two devices as [v4l2-ctl --list-devices] prints them. *)
Definition v4l2_text : string :=
  "Integrated Camera (usb-0000:00:14.0-8):" +:+ LF +:+
  TAB +:+ "/dev/video0" +:+ LF +:+ TAB +:+ "/dev/video1" +:+ LF +:+
  TAB +:+ "/dev/media0" +:+ LF +:+ LF +:+
  "USB Webcam (usb-0000:00:14.0-2):" +:+ LF +:+
  TAB +:+ "/dev/video2" +:+ LF.
End ListSpec.

(** * Properties *)

(** ** The string built-ins on the values the interpreter gives *)

Section BuiltinExamples.
Import PyStr NamesSpec.

Example int_examples :
  PyStr.int "0" = Some 0 /\ PyStr.int "0123" = Some 123 /\ PyStr.int "-1" = Some (-1) /\
  PyStr.int "+1" = Some 1 /\ PyStr.int " 7 " = Some 7 /\ PyStr.int "1_0" = Some 10 /\
  PyStr.int "" = None /\ PyStr.int "-" = None /\ PyStr.int "- 1" = None /\
  PyStr.int "1__0" = None /\ PyStr.int "_1" = None /\ PyStr.int "1_" = None /\
  PyStr.int "x" = None /\ PyStr.int "/dev/" = None.
Proof. repeat split; reflexivity. Qed.

(** The interpreter converts a literal of 4300 digits and refuses one of
4301, leading zeros counted. *)
Example int_digit_limit :
  PyStr.int (sevens 4300) = Some (decimal 0 (sevens 4300)) /\
  PyStr.int (sevens 4301) = None /\
  PyStr.int ("-" +:+ sevens 4301) = None /\
  PyStr.int ("0" +:+ sevens 4300) = None /\
  path_index ("/dev/video" +:+ sevens 4301) = None.
Proof. repeat split; vm_compute; reflexivity. Qed.

Example split_examples :
  split "video" "/dev/video0" = ["/dev/"; "0"] /\
  split "video" "/dev/video0video1" = ["/dev/"; "0"; "1"] /\
  split "video" "video" = [""; ""] /\
  split "video" "avideovideob" = ["a"; ""; "b"] /\
  split "video" "vvideo" = ["v"; ""] /\
  split "video" "/dev/media0" = ["/dev/media0"].
Proof. repeat split; reflexivity. Qed.

Example splitlines_examples :
  splitlines ("a" +:+ CR +:+ LF +:+ "b" +:+ LF +:+ LF +:+ "c") = ["a"; "b"; ""; "c"] /\
  splitlines "" = [] /\
  splitlines LF = [""] /\
  splitlines ("a" +:+ LF) = ["a"] /\
  splitlines (CR +:+ CR +:+ LF) = [""; ""].
Proof. repeat split; reflexivity. Qed.

Example strip_lower_examples :
  strip (" " +:+ TAB +:+ "a b " +:+ LF) = "a b" /\
  strip (TAB +:+ LF) = "" /\
  lower "Cell PHONE" = "cell phone" /\
  contains "phone" "cell phone" = true /\
  contains "phone" "person" = false /\
  startswith (TAB +:+ "/dev/video0") TAB = true /\
  endswith "FaceTime HD Camera:" "Camera:" = true /\
  remove_char ":" "FaceTime HD Camera:" = "FaceTime HD Camera".
Proof. repeat split; reflexivity. Qed.

Example str_examples :
  str 0 = "0" /\ str 23 = "23" /\ str (-5) = "-5".
Proof. repeat split; reflexivity. Qed.
End BuiltinExamples.

(** ** Facts about the string built-ins *)

Section StringFacts.
Import PyStr.

Lemma prefix_nil (s : string) : String.prefix "" s = true.
Proof. by destruct s. Qed.

Lemma prefix_cons (c d : ascii) (p s : string) :
  String.prefix (String c p) (String d s) =
    if Ascii.ascii_dec c d then String.prefix p s else false.
Proof. reflexivity. Qed.

Lemma app_cons (c : ascii) (p q : string) : String c p +:+ q = String c (p +:+ q).
Proof. reflexivity. Qed.

Lemma prefix_app (p s : string) :
  String.prefix p s = true <-> exists q, s = p +:+ q.
Proof.
  revert s; induction p as [|c p IH]; intros s.
  - rewrite prefix_nil. split; [intros _; by exists s | done].
  - destruct s as [|d s].
    + split; [done | intros [q Hq]; discriminate].
    + rewrite prefix_cons. destruct (Ascii.ascii_dec c d) as [->|Hne].
      * rewrite IH. split; intros [q Hq]; exists q; rewrite ?app_cons in *; congruence.
      * split; [done | intros [q Hq]; rewrite app_cons in Hq; congruence].
Qed.

Lemma contains_nil (n : string) : contains n "" = String.prefix n "".
Proof. apply orb_false_r. Qed.

Lemma contains_cons (n : string) (c : ascii) (s : string) :
  contains n (String c s) = String.prefix n (String c s) || contains n s.
Proof. reflexivity. Qed.

Lemma contains_app (n s : string) :
  contains n s = true <-> exists p q, s = p +:+ n +:+ q.
Proof.
  induction s as [|c s IH]; [rewrite contains_nil | rewrite contains_cons].
  - rewrite prefix_app. split.
    + intros [q Hq]. by exists EmptyString, q.
    + intros [p [q Hq]]. destruct p; [by exists q | discriminate].
  - rewrite orb_true_iff, IH, prefix_app. split.
    + intros [[q Hq] | [p [q Hq]]].
      * by exists EmptyString, q.
      * exists (String c p), q. by rewrite app_cons, Hq.
    + intros [p [q Hq]]. destruct p as [|d p].
      * left. by exists q.
      * right. exists p, q. rewrite app_cons in Hq. congruence.
Qed.

Lemma string_app_assoc (a b c : string) : (a +:+ b) +:+ c = a +:+ (b +:+ c).
Proof. induction a as [|x a IH]; [done|]. by rewrite !app_cons, IH. Qed.

(** A text that contains [a ++ b] contains [b]. *)
Lemma contains_suffix_of_needle (a b s : string) :
  contains (a +:+ b) s = true -> contains b s = true.
Proof.
  rewrite !contains_app. intros [p [q ->]].
  exists (p +:+ a), q. by rewrite !string_app_assoc.
Qed.
End StringFacts.

(** ** The detection loop: which detections count as a phone *)

Section PhoneMatch.
Import PyStr PhoneDetector LoopSpec.

(** The second clause of the test of line 66 adds nothing. *)
Lemma is_phone_contains_phone (name : string) :
  is_phone name = contains "phone" (lower name).
Proof.
  unfold is_phone.
  destruct (contains "cell phone" (lower name)) eqn:Hc.
  - by rewrite (contains_suffix_of_needle "cell " "phone" _ Hc).
  - apply orb_false_r.
Qed.

Lemma scan_boxes_from (w : World) (results : list Box) (frame : Frame) (d : bool) :
  fold_left (scan_box w) results (frame, d) =
    ({| image := image frame;
        overlays := overlays frame ++ map (box_overlay w) (List.filter (phone_like w) results) |},
     d || existsb (phone_like w) results).
Proof.
  revert frame d; induction results as [|b results IH]; intros [img ovs] d; simpl.
  - by rewrite app_nil_r, orb_false_r.
  - rewrite is_phone_contains_phone. fold (phone_like w b).
    destruct (phone_like w b); rewrite IH; simpl.
    + by rewrite <- app_assoc, orb_true_r.
    + done.
Qed.

Lemma scan_boxes_eq (w : World) (frame : Frame) (results : list Box) :
  scan_boxes w frame results =
    ({| image := image frame;
        overlays := overlays frame ++
                    map (box_overlay w) (List.filter (phone_like w) results) |},
     existsb (phone_like w) results).
Proof. unfold scan_boxes. by rewrite scan_boxes_from. Qed.

(** C1. A detection counts as a phone exactly when its resolved class
  name, lowercased, contains "phone" (the "cell phone" clause of the
  test is redundant); the scan of a frame's detections draws one box for
  each such detection and for no other, in detection order, and the
  per-frame flag it returns is true exactly when some detection is such
  a match. *)
Theorem C1_phone_match (w : World) (frame : Frame) (results : list Box) :
  (forall name, is_phone name = contains "phone" (lower name)) /\
  scan_boxes w frame results =
    ({| image := image frame;
        overlays := overlays frame ++
                    map (box_overlay w) (List.filter (phone_like w) results) |},
     existsb (phone_like w) results) /\
  (snd (scan_boxes w frame results) = true <->
   exists b, In b results /\ phone_like w b = true).
Proof.
  split; [exact is_phone_contains_phone|].
  rewrite scan_boxes_eq. split; [done|]. apply existsb_exists.
Qed.
End PhoneMatch.

(** ** [list_camera_indexes] *)

Section ProbeLoop.
Import ListCameras CameraSpec.
Variable w : Cameras.

Lemma probe_unfold (indexes : list Z) (tr : list CapEvent) (i : Z) :
  probe w (indexes, tr) i =
    (indexes ++ filter (usable w) [i], tr ++ probe_events w i).
Proof.
  unfold probe, probe_events.
  destruct (opens w i) eqn:Ho.
  - destruct (reads w i) eqn:Hr.
    + rewrite filter_cons_True by done.
      by rewrite <- !app_assoc.
    + rewrite filter_cons_False by (intros [? ?]; congruence).
      by rewrite app_nil_r, <- !app_assoc.
  - rewrite filter_cons_False by (intros [? ?]; congruence).
    by rewrite app_nil_r.
Qed.

Lemma fold_probe (idxs indexes : list Z) (tr : list CapEvent) :
  fold_left (probe w) idxs (indexes, tr) =
    (indexes ++ filter (usable w) idxs, tr ++ concat (map (probe_events w) idxs)).
Proof.
  revert indexes tr; induction idxs as [|i idxs IH]; intros indexes tr.
  - by rewrite !app_nil_r.
  - cbn [fold_left]. rewrite probe_unfold, IH.
    replace (filter (usable w) (i :: idxs))
      with (filter (usable w) [i] ++ filter (usable w) idxs)
      by (by rewrite <- filter_app).
    by rewrite <- !app_assoc.
Qed.

Lemma probe_loop_eq (idxs : list Z) :
  probe_loop w idxs = (filter (usable w) idxs, concat (map (probe_events w) idxs)).
Proof. unfold probe_loop. by rewrite fold_probe. Qed.

Lemma holding_probe_events (live : list Z) (i : Z) :
  i ∉ live ->
  fold_left (track true) (probe_events w i) live = live.
Proof.
  intros Hi. unfold probe_events. destruct (opens w i); simpl; [|done].
  rewrite List.filter_app. simpl. rewrite Z.eqb_refl. simpl. rewrite app_nil_r.
  induction live as [|j live IH]; [done|]. simpl.
  apply not_elem_of_cons in Hi as [Hne Hi].
  destruct (Z.eqb_spec j i) as [->|_]; [done|]. simpl. by rewrite IH.
Qed.

Lemma holding_probes (idxs : list Z) :
  fold_left (track true) (concat (map (probe_events w) idxs)) [] = [].
Proof.
  induction idxs as [|i idxs IH]; [done|].
  cbn [map concat]. rewrite fold_left_app, holding_probe_events by apply not_elem_of_nil.
  exact IH.
Qed.

Lemma release_in_probes (idxs : list Z) (i : Z) :
  Release i ∈ concat (map (probe_events w) idxs) <-> i ∈ idxs /\ opens w i = true.
Proof.
  induction idxs as [|j idxs IH]; cbn [map concat].
  - rewrite !elem_of_nil. split; [intros [] | intros [[] _]].
  - rewrite elem_of_app, IH, elem_of_cons. unfold probe_events.
    destruct (opens w j) eqn:Ho.
    + rewrite !elem_of_cons, elem_of_nil. split.
      * intros [[?|[?|[?|[]]]]|[? ?]]; try discriminate; [|by auto].
        simplify_eq. auto.
      * intros [[->|?] ?]; [left | right]; auto.
    + rewrite elem_of_cons, elem_of_nil. split.
      * intros [[?|[]]|[? ?]]; [discriminate | auto].
      * intros [[->|?] ?]; [congruence | right; auto].
Qed.
End ProbeLoop.

Lemma seqZ_sorted (m n : Z) : StronglySorted Z.lt (seqZ m n).
Proof.
    remember (Z.to_nat n) as k eqn:Hk. revert m n Hk.
    induction k as [|k IH]; intros m n Hk.
    - rewrite seqZ_nil by lia. constructor.
    - rewrite seqZ_cons by lia. constructor.
      + apply IH. lia.
      + apply Forall_seqZ. lia.
Qed.

Lemma sublist_sorted (l1 l2 : list Z) :
    sublist l1 l2 -> StronglySorted Z.lt l2 -> StronglySorted Z.lt l1.
Proof.
    induction 1 as [|x l1 l2 Hs IH|x l1 l2 Hs IH]; intros Hsort.
    - constructor.
    - apply StronglySorted_inv in Hsort as [Hsort Hall]. constructor; [auto|].
      apply Forall_forall. intros y Hy.
      rewrite Forall_forall in Hall. apply Hall.
      by apply (sublist_subseteq _ _ Hs).
    - apply StronglySorted_inv in Hsort as [Hsort _]. auto.
Qed.

Section ListCameraIndexes.
Import ListCameras CameraSpec.

(** C2. For [max_tested >= 0] the result is the usable indexes among
  [0 .. max_tested-1] in probe order: a subsequence of that range,
  strictly ascending, of length at most [max_tested]; an index is in
  the result exactly when its handle opens and its single read
  succeeds, and a failed index is simply left out. *)
Theorem C2_indexes_subsequence (w : Cameras) (max_tested : Z) :
  0 <= max_tested ->
  list_camera_indexes w max_tested = filter (usable w) (seqZ 0 max_tested) /\
  sublist (list_camera_indexes w max_tested) (seqZ 0 max_tested) /\
  StronglySorted Z.lt (list_camera_indexes w max_tested) /\
  Z.of_nat (length (list_camera_indexes w max_tested)) <= max_tested /\
  (forall i, i ∈ list_camera_indexes w max_tested <->
             0 <= i < max_tested /\ opens w i = true /\ reads w i = true).
Proof.
  intros Hn.
  assert (Heq : list_camera_indexes w max_tested = filter (usable w) (seqZ 0 max_tested)).
  { unfold list_camera_indexes, list_camera_indexes_run, range.
    by rewrite probe_loop_eq. }
  rewrite Heq.
  assert (Hsub : sublist (filter (usable w) (seqZ 0 max_tested)) (seqZ 0 max_tested))
    by apply sublist_filter.
  split; [done|]. split; [done|]. split; [|split].
  - eapply sublist_sorted; [exact Hsub | apply seqZ_sorted].
  - apply sublist_length in Hsub. rewrite length_seqZ in Hsub. lia.
  - intros i. rewrite list_elem_of_filter, elem_of_seqZ. unfold usable.
    split; [intros [[? ?] ?] | intros [? [? ?]]]; repeat split; auto; lia.
Qed.

Lemma C2_indexes_subsequence_witness :
  0 <= 4 /\ list_camera_indexes three_cameras 4 = [0; 2].
Proof.
  split; [lia|].
  destruct (C2_indexes_subsequence three_cameras 4 ltac:(lia)) as [-> _].
  reflexivity.
Defined.

(** C4, as the code has it.  A handle whose open attempt succeeded is
  released before the next index is probed, whatever its read
  returned: after any number [k] of probe iterations (the run is the
  remaining iterations applied to the state reached then) no opened
  handle is still held.  [release] is called for exactly the probed
  indexes whose handle opened; a handle that did not open is not
  released. *)
Theorem C4_opened_handles_released (w : Cameras) (max_tested : Z) (k : nat) :
  list_camera_indexes_run w max_tested =
    fold_left (probe w) (drop k (range max_tested))
      (probe_loop w (take k (range max_tested))) /\
  holding (snd (probe_loop w (take k (range max_tested)))) = [] /\
  (forall i, Release i ∈ snd (list_camera_indexes_run w max_tested) <->
             0 <= i < max_tested /\ opens w i = true).
Proof.
  split.
  { unfold list_camera_indexes_run, probe_loop.
    by rewrite <- fold_left_app, take_drop. }
  unfold list_camera_indexes_run. rewrite !probe_loop_eq. simpl. split.
  - apply holding_probes.
  - intros i. rewrite release_in_probes. unfold range. rewrite elem_of_seqZ.
    split; intros [? ?]; split; auto; lia.
Qed.

(** C4 as stated fails: with no camera at index 0 the handle created for
  it is never released. *)
Lemma C4_unopened_handle_not_released :
  list_camera_indexes_run no_cameras 1 = ([], [VideoCapture 0 false]) /\
  unreleased (snd (list_camera_indexes_run no_cameras 1)) = [0] /\
  ~ (forall w n, unreleased (snd (list_camera_indexes_run w n)) = []).
Proof.
  split; [reflexivity|]. split; [reflexivity|].
  intros H. specialize (H no_cameras 1). discriminate H.
Qed.
End ListCameraIndexes.

(** ** The monad: which exceptions a computation can raise *)

Section Raises.
Import NamesSpec.
Context {S : Type}.
Variable P : exc_class -> bool.

Lemma raises_pure {A} (a : A) : raises_within P (pure a : M S A).
Proof. intros s e s' H. discriminate H. Qed.

Lemma raises_get : raises_within P (get : M S S).
Proof. intros s e s' H. discriminate H. Qed.

Lemma raises_modify (f : S -> S) : raises_within P (modify f).
Proof. intros s e s' H. discriminate H. Qed.

Lemma raises_raise {A} (c : exc_class) (msg : string) :
  P c = true -> raises_within P (raise (Exn c msg) : M S A).
Proof. intros Hc s e s' H. injection H as <- _. exact Hc. Qed.

Lemma raises_bind {A B} (m : M S A) (k : A -> M S B) :
  raises_within P m -> (forall a, raises_within P (k a)) ->
  raises_within P (bind m k).
Proof.
  intros Hm Hk s e s'. unfold bind.
  destruct (m s) as [[e1|a] s1] eqn:Hms.
  - intros H. injection H as <- _. eapply Hm, Hms.
  - apply Hk.
Qed.

Lemma raises_try_except {A} (body : M S A) (catches : exc_class -> bool)
      (handler : exn -> M S A) :
  raises_within P body -> (forall e, raises_within P (handler e)) ->
  raises_within P (try_except body catches handler).
Proof.
  intros Hb Hh s e s'. unfold try_except.
  destruct (body s) as [[e1|a] s1] eqn:Hbs; [|discriminate].
  destruct (catches (exc e1)).
  - apply Hh.
  - intros H. injection H as <- _. eapply Hb, Hbs.
Qed.

Lemma raises_for_each {A} (l : list A) (body : A -> M S unit) :
  (forall x, raises_within P (body x)) -> raises_within P (for_each l body).
Proof.
  intros Hb. induction l as [|x l IH]; simpl.
  - apply raises_pure.
  - apply raises_bind; auto.
Qed.

Lemma raises_call {A} (r : exn + A) :
  (forall e, r = inl e -> P (exc e) = true) -> raises_within P (call r : M S A).
Proof.
  intros Hr. destruct r as [[c msg]|a]; simpl; [|apply raises_pure].
  apply raises_raise. by apply (Hr (Exn c msg)).
Qed.

(** A handler that catches all that can be raised and does not raise
itself makes the statement total. *)
Lemma try_except_returns {A} (body : M S A) (handler : exn -> M S A) (s : S) :
  raises_within P body ->
  (forall e s1, exists a s2, handler e s1 = (inr a, s2)) ->
  exists a s', try_except body P handler s = (inr a, s').
Proof.
  intros Hb Hh. unfold try_except.
  destruct (body s) as [[e|a] s1] eqn:Hbs; [|by eauto].
  rewrite (Hb _ _ _ Hbs). apply Hh.
Qed.
End Raises.

Create HintDb raises.

#[local] Hint Resolve raises_pure raises_get raises_modify raises_raise raises_bind
  raises_try_except raises_for_each : raises.

(** ** The Linux branch of [get_camera_names], line by line *)

Section LinuxLines.
Import PyStr ListCameras NamesSpec.

Lemma split_go_second (sep s : string) :
  sep <> EmptyString -> contains sep s = true -> snd (split_go sep 0 s) <> [].
Proof.
  intros Hsep. induction s as [|c s IH].
  - rewrite contains_nil. destruct sep; [done | discriminate].
  - rewrite contains_cons. cbn [split_go].
    destruct (String.prefix sep (String c s)).
    { intros _. cbn [snd]. by destruct (split_go sep (String.length sep - 1) s). }
    intros Hc. specialize (IH Hc).
    destruct (split_go sep 0 s) as [hd tl]. exact IH.
Qed.

Lemma split_second (dev_path : string) :
  contains "/dev/video" dev_path = true ->
  exists a seg rest, split "video" dev_path = a :: seg :: rest.
Proof.
  intros Hc.
  apply (contains_suffix_of_needle "/dev/" "video") in Hc.
  apply (split_go_second "video") in Hc; [|discriminate].
  unfold split. destruct (split_go "video" 0 dev_path) as [hd [|seg rest]]; [done|].
  by exists hd, seg, rest.
Qed.

(** The subscript [[1]] of line 50 never fails, and the only exception of
the block, the [ValueError] of [int()], is caught on the spot. *)
Lemma linux_line_eq (line : string) (s : NState) :
  linux_line line s = (inr tt, after_line line s).
Proof.
  unfold linux_line, after_line.
  destruct (startswith line TAB); simpl; [|done].
  unfold path_index.
  destruct (contains "/dev/video" (strip line)) eqn:Hc; [|done].
  destruct (split_second _ Hc) as [a [seg [rest ->]]].
  unfold try_except, bind, item, int_of. simpl.
  destruct (PyStr.int seg) as [idx|]; reflexivity.
Qed.

Lemma for_each_linux_lines (lines : list string) (s : NState) :
  for_each lines linux_line s = (inr tt, fold_left (fun st l => after_line l st) lines s).
Proof.
  revert s; induction lines as [|l lines IH]; intros s; simpl; [done|].
  unfold bind. by rewrite linux_line_eq, IH.
Qed.

(** Digits only: [int()] reads the decimal value. *)
Lemma int_digits_decimal (s : string) (acc : Z) (prev : bool) :
  all_digits s = true -> (s <> EmptyString \/ prev = true) ->
  int_digits acc prev s = Some (decimal acc s).
Proof.
  revert acc prev; induction s as [|c s IH]; intros acc prev Hd Hne; simpl.
  - destruct Hne as [?| ->]; done.
  - simpl in Hd. apply andb_true_iff in Hd as [Hc Hd].
    unfold digit_val. rewrite Hc. apply IH; auto.
Qed.

Lemma digit_not_int_space (c : ascii) : between 48 57 c = true -> is_int_space c = false.
Proof.
  unfold is_int_space, between. intros H.
  apply andb_true_iff in H as [H1 H2].
  apply N.leb_le in H1, H2.
  repeat (apply orb_false_iff; split);
    rewrite ?andb_false_iff, ?N.leb_gt, ?N.eqb_neq; lia.
Qed.

Lemma rstrip_digits (s : string) :
  all_digits s = true -> rstrip_by is_int_space s = s.
Proof.
  induction s as [|c s IH]; simpl; [done|].
  intros Hd. apply andb_true_iff in Hd as [Hc Hd].
  by rewrite (digit_not_int_space _ Hc), IH.
Qed.

Lemma count_all_digits (s : string) :
  all_digits s = true -> count_digits s = Z.of_nat (String.length s).
Proof.
  induction s as [|c s IH]; [done|]. cbn [all_digits count_digits String.length].
  intros Hd. apply andb_true_iff in Hd as [-> Hd]. rewrite IH by done. lia.
Qed.

(** Digits only, and no more of them than the interpreter converts. *)
Lemma int_of_digits (s : string) :
  all_digits s = true -> s <> EmptyString ->
  Z.of_nat (String.length s) <= max_str_digits ->
  PyStr.int s = Some (decimal 0 s).
Proof.
  intros Hd Hne Hlen. unfold PyStr.int.
  destruct s as [|c s]; [done|].
  assert (Hc : between 48 57 c = true) by (simpl in Hd; by apply andb_true_iff in Hd as [? ?]).
  cbn [lstrip_by]. rewrite (digit_not_int_space _ Hc), rstrip_digits by done.
  assert (H43 : (code c =? 43)%N = false).
  { unfold between in Hc. apply andb_true_iff in Hc as [H1 _].
    apply N.leb_le in H1. apply N.eqb_neq. lia. }
  assert (H45 : (code c =? 45)%N = false).
  { unfold between in Hc. apply andb_true_iff in Hc as [H1 _].
    apply N.leb_le in H1. apply N.eqb_neq. lia. }
  rewrite H43, H45. unfold int_literal.
  rewrite (int_digits_decimal (String c s) 0 false) by auto.
  rewrite count_all_digits by done.
  by destruct (Z.ltb_spec max_str_digits (Z.of_nat (String.length (String c s)))); [lia|].
Qed.

(** More digits than the interpreter converts: [int()] refuses. *)
Lemma int_of_long_digits (s : string) :
  all_digits s = true -> max_str_digits < Z.of_nat (String.length s) ->
  PyStr.int s = None.
Proof.
  intros Hd Hlen. unfold PyStr.int.
  destruct s as [|c s]; [done|].
  assert (Hc : between 48 57 c = true) by (simpl in Hd; by apply andb_true_iff in Hd as [? ?]).
  cbn [lstrip_by]. rewrite (digit_not_int_space _ Hc), rstrip_digits by done.
  assert (H43 : (code c =? 43)%N = false).
  { unfold between in Hc. apply andb_true_iff in Hc as [H1 _].
    apply N.leb_le in H1. apply N.eqb_neq. lia. }
  assert (H45 : (code c =? 45)%N = false).
  { unfold between in Hc. apply andb_true_iff in Hc as [H1 _].
    apply N.leb_le in H1. apply N.eqb_neq. lia. }
  rewrite H43, H45. unfold int_literal.
  rewrite (int_digits_decimal (String c s) 0 false) by auto.
  rewrite count_all_digits by done.
  by destruct (Z.ltb_spec max_str_digits (Z.of_nat (String.length (String c s)))); [|lia].
Qed.

Lemma digits_no_separator (s : string) :
  all_digits s = true -> split_go "video" 0 s = (s, []).
Proof.
  induction s as [|c s IH]; [done|].
  intros Hd. simpl in Hd. apply andb_true_iff in Hd as [Hc Hd].
  cbn [split_go]. rewrite prefix_cons.
  destruct (Ascii.ascii_dec "v" c) as [<-|_]; [discriminate Hc|].
  by rewrite IH.
Qed.

Lemma path_index_digits (ds : string) :
  all_digits ds = true -> ds <> EmptyString ->
  path_index ("/dev/video" +:+ ds) =
    if max_str_digits <? Z.of_nat (String.length ds) then None else Some (decimal 0 ds).
Proof.
  intros Hd Hne. unfold path_index.
  assert (Hc : contains "/dev/video" ("/dev/video" +:+ ds) = true).
  { apply contains_app. by exists EmptyString, ds. }
  rewrite Hc.
  assert (Hs : split "video" ("/dev/video" +:+ ds) = ["/dev/"; ds]).
  { unfold split. rewrite !app_cons. change (EmptyString +:+ ds) with ds.
    simpl. rewrite prefix_nil. by rewrite digits_no_separator. }
  rewrite Hs.
  destruct (Z.ltb_spec max_str_digits (Z.of_nat (String.length ds))).
  - by apply int_of_long_digits.
  - by apply int_of_digits.
Qed.
End LinuxLines.

(** ** [get_camera_names]: no exception escapes, and what the Linux branch binds *)

Section CameraNames.
Import PyStr ListCameras NamesSpec CameraSpec.

Lemma raises_item {S A} (l : list A) (i : nat) :
  raises_within is_Exception (item l i : M S A).
Proof. unfold item. destruct (l !! i); auto with raises. Qed.

Lemma raises_int_of {S} (s : string) :
  raises_within is_Exception (int_of s : M S Z).
Proof. unfold int_of. destruct (PyStr.int s); auto with raises. Qed.

Lemma raises_print (line : string) : raises_within is_Exception (ListCameras.print line).
Proof. apply raises_modify. Qed.

Lemma raises_linux_line (line : string) : raises_within is_Exception (linux_line line).
Proof. intros s e s' H. rewrite linux_line_eq in H. discriminate H. Qed.

Lemma raises_bind_raise {S A B} (e : exn) (k : A -> M S B) :
  is_Exception (exc e) = true -> raises_within is_Exception (bind (raise e) k).
Proof. intros He s e' s' H. cbv [bind raise] in H. by injection H as <- _. Qed.

Lemma raises_windows (h : Host) :
  system h = "Windows" ->
  (forall e, source_raises h e -> is_Exception (exc e) = true) ->
  raises_within is_Exception (windows_branch h).
Proof.
  intros Hsys Hok. unfold windows_branch.
  apply raises_try_except; [|intros; apply raises_print].
  destruct (pygrabber_import h) as [e|[]] eqn:Himp; cbn [call].
  - apply raises_bind_raise, Hok. left. split; [done|]. by left.
  - apply raises_bind; [apply raises_pure|]. intros _.
    apply raises_bind.
    + apply raises_call. intros e He. apply Hok. left. split; [done|]. by right.
    + intros devices. apply raises_for_each. intros [i name]. apply raises_modify.
Qed.

Lemma raises_linux (h : Host) :
  system h = "Linux" ->
  (forall e, source_raises h e -> is_Exception (exc e) = true) ->
  raises_within is_Exception (linux_branch h).
Proof.
  intros Hsys Hok. unfold linux_branch.
  apply raises_bind.
  { apply raises_call. intros e He. apply Hok. right. left. by split. }
  intros text.
  apply raises_bind; [apply raises_modify|]. intros _.
  apply raises_for_each, raises_linux_line.
Qed.

Lemma raises_darwin (h : Host) :
  system h = "Darwin" ->
  (forall e, source_raises h e -> is_Exception (exc e) = true) ->
  raises_within is_Exception (darwin_branch h).
Proof.
  intros Hsys Hok. unfold darwin_branch.
  apply raises_bind.
  { apply raises_call. intros e He. apply Hok. right. right. by split. }
  intros text.
  apply raises_for_each. intros [i name]. apply raises_modify.
Qed.

(** When the calls of the host raise nothing but [Exception]s, the
function returns the [names] of its final state. *)
Lemma get_camera_names_returns (h : Host) :
  (forall e, source_raises h e -> is_Exception (exc e) = true) ->
  exists s, get_camera_names h = (inr (names s), s).
Proof.
  intros Hok. unfold get_camera_names, get_camera_names_body.
  unfold bind at 1.
  match goal with
  | |- context [try_except ?b is_Exception ?hd init] =>
      destruct (try_except_returns is_Exception b hd init) as [a [s Heq]]
  end.
  - destruct (String.eqb_spec (system h) "Windows"); [by apply raises_windows|].
    destruct (String.eqb_spec (system h) "Linux"); [by apply raises_linux|].
    destruct (String.eqb_spec (system h) "Darwin"); [by apply raises_darwin|].
    apply raises_pure.
  - intros e s1. eexists tt, _. reflexivity.
  - rewrite Heq. exists s. reflexivity.
Qed.

(** The Linux branch when the tool answers: the lines of the stripped
output are folded into the state one by one. *)
Lemma linux_names_eq (h : Host) (text : string) :
  system h = "Linux" ->
  subprocess_run h ["v4l2-ctl"; "--list-devices"] = inr text ->
  get_camera_names h =
    (let s := fold_left (fun st l => after_line l st) (splitlines (strip text))
                (set_dev_name None init) in
     (inr (names s), s)).
Proof.
  intros Hsys Hrun.
  unfold get_camera_names, get_camera_names_body, try_except, bind.
  rewrite Hsys. cbn [String.eqb Ascii.eqb Bool.eqb].
  unfold linux_branch, bind. rewrite Hrun. cbn [call pure modify].
  by rewrite for_each_linux_lines.
Qed.

(** A call of the host that raises: an [Exception] is logged and the
mapping is empty, the [ImportError] of the Windows branch gives the tip
instead, and anything else leaves the function. *)
Lemma linux_failure (h : Host) (e : exn) :
  system h = "Linux" ->
  subprocess_run h ["v4l2-ctl"; "--list-devices"] = inl e ->
  get_camera_names h =
    if is_Exception (exc e) then
      (inr ∅, {| names := ∅; dev_name := None; out := [failure_note (exc_msg e)] |})
    else (inl e, init).
Proof.
  intros Hsys Hrun.
  unfold get_camera_names, get_camera_names_body, try_except, bind.
  rewrite Hsys. cbn [String.eqb Ascii.eqb Bool.eqb].
  unfold linux_branch, bind. rewrite Hrun. cbn [call raise exc].
  by destruct (is_Exception (exc e)).
Qed.

Lemma darwin_failure (h : Host) (e : exn) :
  system h = "Darwin" ->
  subprocess_run h ["system_profiler"; "SPCameraDataType"] = inl e ->
  get_camera_names h =
    if is_Exception (exc e) then
      (inr ∅, {| names := ∅; dev_name := None; out := [failure_note (exc_msg e)] |})
    else (inl e, init).
Proof.
  intros Hsys Hrun.
  unfold get_camera_names, get_camera_names_body, try_except, bind.
  rewrite Hsys. cbn [String.eqb Ascii.eqb Bool.eqb].
  unfold darwin_branch, bind. rewrite Hrun. cbn [call raise exc].
  by destruct (is_Exception (exc e)).
Qed.

Lemma windows_failure (h : Host) (e : exn) :
  system h = "Windows" ->
  pygrabber_import h = inl e \/ pygrabber_import h = inr tt /\ input_devices h = inl e ->
  get_camera_names h =
    if exc_class_eqb ImportError (exc e) then
      (inr ∅, {| names := ∅; dev_name := None; out := [tip] |})
    else if is_Exception (exc e) then
      (inr ∅, {| names := ∅; dev_name := None; out := [failure_note (exc_msg e)] |})
    else (inl e, init).
Proof.
  intros Hsys Hraise.
  unfold get_camera_names, get_camera_names_body, try_except, bind.
  rewrite Hsys. cbn [String.eqb Ascii.eqb Bool.eqb].
  unfold windows_branch, try_except, bind.
  destruct Hraise as [Himp | [Himp Hdev]]; rewrite Himp, ?Hdev; cbn [call raise pure exc].
  all: destruct (exc_class_eqb ImportError (exc e)); [reflexivity|].
  all: by destruct (is_Exception (exc e)).
Qed.

(** The outcome of a call that raises, on the three platforms at once. *)
Lemma source_failure (h : Host) (e : exn) :
  source_raises h e ->
  get_camera_names h =
    if is_Exception (exc e) then
      (inr ∅,
       {| names := ∅; dev_name := None;
          out := [if String.eqb (system h) "Windows" && exc_class_eqb ImportError (exc e)
                  then tip else failure_note (exc_msg e)] |})
    else (inl e, init).
Proof.
  intros [[Hsys Hraise] | [[Hsys Hrun] | [Hsys Hrun]]].
  - rewrite (windows_failure h e Hsys Hraise), Hsys. cbn [String.eqb Ascii.eqb Bool.eqb andb].
    destruct e as [[] msg]; reflexivity.
  - rewrite (linux_failure h e Hsys Hrun), Hsys. reflexivity.
  - rewrite (darwin_failure h e Hsys Hrun), Hsys. reflexivity.
Qed.

(** *** The first line of the stripped output is not indented *)

Lemma lstrip_head (sp : ascii -> bool) (s : string) (c : ascii) (r : string) :
  lstrip_by sp s = String c r -> sp c = false.
Proof.
  induction s as [|d s IH]; simpl; [done|].
  destruct (sp d) eqn:Hd; [exact IH|].
  intros H. injection H as <- _. exact Hd.
Qed.

Lemma strip_head (s : string) (c : ascii) (r : string) :
  strip s = String c r -> is_space c = false.
Proof.
  unfold strip. destruct (lstrip_by is_space s) as [|d t] eqn:Hl; [done|].
  apply lstrip_head in Hl. simpl. rewrite Hl. simpl.
  intros H. injection H as <- _. exact Hl.
Qed.

Lemma linebreak_is_space (c : ascii) : is_linebreak c = true -> is_space c = true.
Proof.
  unfold is_linebreak, is_space, between.
  rewrite !orb_true_iff, !andb_true_iff, !N.leb_le, !N.eqb_eq. lia.
Qed.

Lemma indented_is_space (c : ascii) (l : string) :
  startswith (String c l) TAB = true -> is_space c = true.
Proof.
  unfold startswith, TAB. rewrite prefix_cons.
  destruct (Ascii.ascii_dec _ c) as [<-|_]; [reflexivity | discriminate].
Qed.

Lemma splitlines_head (c : ascii) (r : string) :
  is_linebreak c = false ->
  exists l ls, splitlines (String c r) = String c l :: ls.
Proof.
  intros Hc. cbn [splitlines]. rewrite Hc.
  destruct (splitlines r) as [|l ls]; eauto.
Qed.

Lemma first_line_not_indented (text : string) :
  splitlines (strip text) = [] \/
  exists l ls, splitlines (strip text) = l :: ls /\ startswith l TAB = false.
Proof.
  destruct (strip text) as [|c r] eqn:Hs; [by left | right].
  apply strip_head in Hs.
  assert (Hb : is_linebreak c = false).
  { destruct (is_linebreak c) eqn:Hb; [|done].
    apply linebreak_is_space in Hb. congruence. }
  destruct (splitlines_head c r Hb) as [l [ls ->]].
  exists (String c l), ls. split; [done|].
  destruct (startswith (String c l) TAB) eqn:Ht; [|done].
  apply indented_is_space in Ht. congruence.
Qed.

(** *** Every bound value is a string *)

Lemma named_set_name (idx : Z) (s : NState) :
  named s -> named (set_name idx (dev_name s) s).
Proof.
  intros [Hd Hn]. split; [exact Hd|]. simpl.
  apply map_Forall_insert_2; auto.
Qed.

Lemma named_after_line (line : string) (s : NState) :
  named s -> named (after_line line s).
Proof.
  intros Hs. unfold after_line.
  destruct (startswith line TAB).
  - destruct (path_index (strip line)); [by apply named_set_name | done].
  - destruct Hs as [_ Hn]. split; [by eexists | exact Hn].
Qed.

Lemma named_fold (lines : list string) (s : NState) :
  named s -> named (fold_left (fun st l => after_line l st) lines s).
Proof.
  revert s; induction lines as [|l lines IH]; intros s Hs; simpl; [done|].
  by apply IH, named_after_line.
Qed.

Lemma linux_values_are_strings (text : string) :
  map_Forall (fun _ v => is_Some v)
    (names (fold_left (fun st l => after_line l st) (splitlines (strip text))
              (set_dev_name None init))).
Proof.
  destruct (first_line_not_indented text) as [-> | [l [ls [-> Hl]]]].
  - simpl. apply map_Forall_empty.
  - cbn [fold_left]. unfold after_line at 2. rewrite Hl.
    apply named_fold. split; [by eexists | apply map_Forall_empty].
Qed.

(** C5, as the code has it.  A line of the Linux branch never raises: an
indented line whose stripped text contains "/dev/video" is skipped, and
nothing else happens, exactly when [int()] rejects the text between the
first and the second occurrence of "video" in it (a text that is no
literal, or a literal of more digits than the interpreter converts); an
entry is added, under
the current device name, only when [int()] accepts that text, and the key
is the integer it reads, which may be negative.  The mapping returned is
the one the lines of the stripped output build up in this way, one after
the other. *)
Theorem C5_path_lines (line : string) (s : NState) :
  linux_line line s = (inr tt, after_line line s) /\
  (startswith line TAB = true -> path_index (strip line) = None ->
   after_line line s = s /\
   (contains "/dev/video" (strip line) = true ->
    exists a seg rest,
      split "video" (strip line) = a :: seg :: rest /\ PyStr.int seg = None)) /\
  (forall idx, startswith line TAB = true -> path_index (strip line) = Some idx ->
     after_line line s = set_name idx (dev_name s) s /\
     contains "/dev/video" (strip line) = true /\
     exists a seg rest,
       split "video" (strip line) = a :: seg :: rest /\ PyStr.int seg = Some idx) /\
  (forall h text,
     system h = "Linux" ->
     subprocess_run h ["v4l2-ctl"; "--list-devices"] = inr text ->
     fst (get_camera_names h) =
       inr (names (fold_left (fun st l => after_line l st) (splitlines (strip text))
                     (set_dev_name None init)))).
Proof.
  split; [apply linux_line_eq|]. unfold after_line.
  split.
  { intros -> Hnone. rewrite Hnone. split; [done|]. intros Hc.
    unfold path_index in Hnone. rewrite Hc in Hnone.
    destruct (split_second _ Hc) as [a [seg [rest Hs]]].
    rewrite Hs in Hnone. by exists a, seg, rest. }
  split.
  2: { intros h text Hsys Hrun. by rewrite (linux_names_eq h text Hsys Hrun). }
  intros idx -> Hidx. rewrite Hidx. split; [done|].
  unfold path_index in Hidx.
  destruct (contains "/dev/video" (strip line)) eqn:Hc; [|done].
  split; [done|].
  destruct (split_second _ Hc) as [a [seg [rest Hs]]].
  rewrite Hs in Hidx. by exists a, seg, rest.
Qed.

(** C5 as stated fails: the characters after "/dev/video" in
"\t/dev/video-1" are not a non-negative integer, and the line still adds
an entry, under the key -1.  Likewise "0video" after "/dev/video" is no
integer, and the line is bound under 0. *)
Lemma C5_negative_index_accepted :
  all_digits "-1" = false /\
  path_index (strip (TAB +:+ "/dev/video-1")) = Some (-1) /\
  fst (get_camera_names (linux_host ("Cam" +:+ LF +:+ TAB +:+ "/dev/video-1" +:+ LF)))
  = inr {[ -1 := Some "Cam" ]} /\
  all_digits "0video" = false /\
  fst (get_camera_names (linux_host ("Cam" +:+ LF +:+ TAB +:+ "/dev/video0video" +:+ LF)))
  = inr {[ 0 := Some "Cam" ]}.
Proof. repeat split; vm_compute; reflexivity. Qed.

(** *** [list_camera_indexes] when a capture call raises *)

Lemma probe_on_quiet (w : Cameras) (faults : Faults) (i : Z) (st : list Z * list CapEvent) :
  quiet w faults i -> probe_on w faults i st = (inr tt, probe w st i).
Proof.
  intros [Hv Hrest]. destruct st as [indexes tr].
  unfold probe_on, probe, bind, record, append_index, modify. rewrite Hv. cbn [attempt pure].
  destruct (opens w i); [|reflexivity].
  destruct Hrest as [-> ->]; [done|]. cbn [attempt pure].
  destruct (reads w i); reflexivity.
Qed.

Lemma probe_on_raises (w : Cameras) (faults : Faults) (i : Z) (e : exn)
      (st : list Z * list CapEvent) :
  raises_at w faults i e -> fst (probe_on w faults i st) = inl e.
Proof.
  destruct st as [indexes tr].
  unfold probe_on, bind, record, append_index, modify.
  intros [Hv | (Hv & Ho & [Hr | [Hr Hl]])]; rewrite Hv; cbn [attempt pure raise]; [done|..];
    rewrite Ho, Hr; cbn [attempt pure raise]; [done|].
  destruct (reads w i); by rewrite Hl.
Qed.

Lemma for_each_probe_quiet (w : Cameras) (faults : Faults) (idxs : list Z)
      (st : list Z * list CapEvent) :
  Forall (quiet w faults) idxs ->
  for_each idxs (probe_on w faults) st = (inr tt, fold_left (probe w) idxs st).
Proof.
  intros Hq. revert st. induction Hq as [|i idxs Hi _ IH]; intros st; [done|].
  cbn [for_each fold_left]. unfold bind. by rewrite probe_on_quiet, IH.
Qed.

Lemma for_each_probe_raises (w : Cameras) (faults : Faults) (pre rest : list Z) (i : Z)
      (e : exn) (st : list Z * list CapEvent) :
  Forall (quiet w faults) pre -> raises_at w faults i e ->
  fst (for_each (pre ++ i :: rest) (probe_on w faults) st) = inl e.
Proof.
  intros Hq Hi. revert st. induction Hq as [|j pre Hj _ IH]; intros st.
  - cbn [app for_each]. unfold bind.
    pose proof (probe_on_raises w faults i e st Hi) as He.
    destruct (probe_on w faults i st) as [[e'|[]] st']; [exact He | discriminate He].
  - cbn [app for_each]. unfold bind. rewrite probe_on_quiet by done. apply IH.
Qed.

Lemma list_camera_indexes_quiet (w : Cameras) (faults : Faults) (max_tested : Z) :
  (forall i, 0 <= i < max_tested -> quiet w faults i) ->
  list_camera_indexes_on w faults max_tested =
    (inr (list_camera_indexes w max_tested), snd (list_camera_indexes_run w max_tested)).
Proof.
  intros Hq. unfold list_camera_indexes_on, list_camera_indexes, list_camera_indexes_run,
    probe_loop.
  rewrite for_each_probe_quiet.
  - by destruct (fold_left (probe w) (range max_tested) ([], [])).
  - apply Forall_forall. intros i Hi. apply elem_of_seqZ in Hi. apply Hq. lia.
Qed.

(** [list_camera_indexes] and its trace are the function when every call
returns. *)
Lemma list_camera_indexes_no_faults (w : Cameras) (max_tested : Z) :
  list_camera_indexes_on w no_faults max_tested =
    (inr (list_camera_indexes w max_tested), snd (list_camera_indexes_run w max_tested)).
Proof. apply list_camera_indexes_quiet. intros i _. by split. Qed.

Lemma list_camera_indexes_raises (w : Cameras) (faults : Faults) (max_tested i : Z) (e : exn) :
  0 <= i < max_tested ->
  (forall j, 0 <= j < i -> quiet w faults j) ->
  raises_at w faults i e ->
  fst (list_camera_indexes_on w faults max_tested) = inl e.
Proof.
  intros Hi Hq He. unfold list_camera_indexes_on, range.
  assert (Hsplit : seqZ 0 max_tested = seqZ 0 i ++ i :: seqZ (i + 1) (max_tested - i - 1)).
  { replace max_tested with (i + (max_tested - i)) at 1 by lia.
    rewrite seqZ_app by lia. f_equal. rewrite seqZ_cons by lia.
    replace (0 + i) with i by lia. f_equal; f_equal; lia. }
  rewrite Hsplit.
  assert (Hpre : Forall (quiet w faults) (seqZ 0 i)).
  { apply Forall_forall. intros j Hj. apply elem_of_seqZ in Hj. apply Hq. lia. }
  pose proof (for_each_probe_raises w faults (seqZ 0 i) (seqZ (i + 1) (max_tested - i - 1))
                i e ([], []) Hpre He) as Hrun.
  destruct (for_each _ _ _) as [[e'|[]] [indexes tr]]; [|discriminate Hrun].
  cbn [fst] in *. by injection Hrun as ->.
Qed.

(** A run of the loop over the indexes raises, or it is the run without a
raise. *)
Lemma for_each_probe_cases (w : Cameras) (faults : Faults) (idxs : list Z)
      (st : list Z * list CapEvent) :
  (exists e, fst (for_each idxs (probe_on w faults) st) = inl e) \/
  for_each idxs (probe_on w faults) st = (inr tt, fold_left (probe w) idxs st).
Proof.
  revert st; induction idxs as [|i idxs IH]; intros st; [by right|].
  cbn [for_each fold_left]. unfold bind.
  assert (Hi : quiet w faults i \/ exists e, raises_at w faults i e).
  { unfold quiet, raises_at.
    destruct (faults i OnVideoCapture) as [e|]; [right; exists e; by left|].
    destruct (opens w i); [|left; split; [done | discriminate]].
    destruct (faults i OnRead) as [e|]; [right; exists e; right; auto|].
    destruct (faults i OnRelease) as [e|]; [right; exists e; right; auto 6|].
    left. by split. }
  destruct Hi as [Hq | [e He]].
  - rewrite probe_on_quiet by done. apply IH.
  - left. exists e. pose proof (probe_on_raises w faults i e st He) as Hr.
    destruct (probe_on w faults i st) as [[e'|[]] st']; [exact Hr | discriminate Hr].
Qed.

(** What [list_camera_indexes] returns when it returns. *)
Lemma list_camera_indexes_on_returns (w : Cameras) (faults : Faults) (max_tested : Z)
      (available : list Z) :
  fst (list_camera_indexes_on w faults max_tested) = inr available ->
  available = filter (usable w) (seqZ 0 max_tested).
Proof.
  unfold list_camera_indexes_on.
  destruct (for_each_probe_cases w faults (range max_tested) ([], [])) as [[e He] | Hrun].
  - destruct (for_each _ _ _) as [[e'|[]] [indexes tr]]; discriminate.
  - rewrite Hrun. fold (probe_loop w (range max_tested)). unfold range.
    rewrite probe_loop_eq. cbn [fst]. intros H. by injection H as <-.
Qed.

(** C6, as the code has it.  [get_camera_names] catches the exceptions of
class [Exception] that the call made for the platform raises: when the
calls raise no other, it returns the [names] of its final state; an
[Exception] is logged (the [ImportError] of the Windows branch gives the
tip instead) and the mapping returned is empty.  An exception outside
[Exception], the [KeyboardInterrupt] of a user interrupt, leaves the
function.  [list_camera_indexes] has no handler: when no capture call it
makes raises it returns its list, and the first call that raises ends it
with that exception, whatever the class.  A camera that is absent raises
nothing: an index whose open or read fails is absent from the list
returned. *)
Theorem C6_no_exception_escapes (h : Host) (w : Cameras) (faults : Faults) (max_tested : Z) :
  ((forall e, source_raises h e -> is_Exception (exc e) = true) ->
   exists s, get_camera_names h = (inr (names s), s)) /\
  (forall e, source_raises h e ->
     get_camera_names h =
       if is_Exception (exc e) then
         (inr ∅,
          {| names := ∅; dev_name := None;
             out := [if String.eqb (system h) "Windows" && exc_class_eqb ImportError (exc e)
                     then tip else failure_note (exc_msg e)] |})
       else (inl e, init)) /\
  ((forall i, 0 <= i < max_tested -> quiet w faults i) ->
   list_camera_indexes_on w faults max_tested =
     (inr (list_camera_indexes w max_tested), snd (list_camera_indexes_run w max_tested))) /\
  (forall i e,
     0 <= i < max_tested -> (forall j, 0 <= j < i -> quiet w faults j) ->
     raises_at w faults i e ->
     fst (list_camera_indexes_on w faults max_tested) = inl e) /\
  (forall available i,
     fst (list_camera_indexes_on w faults max_tested) = inr available ->
     opens w i = false \/ reads w i = false -> i ∉ available).
Proof.
  split; [apply get_camera_names_returns|].
  split; [apply source_failure|].
  split; [apply list_camera_indexes_quiet|].
  split; [intros i e; apply list_camera_indexes_raises|].
  intros available i Hav Hfail Hin.
  rewrite (list_camera_indexes_on_returns w faults max_tested available Hav) in Hin.
  apply list_elem_of_filter in Hin as [[Ho Hr] _].
  destruct Hfail; congruence.
Qed.

(** C6 as stated fails.  The user interrupts the program while the Linux
tool runs: the [KeyboardInterrupt] is no [Exception], the handler of line
64 does not take it, and it leaves [get_camera_names] with nothing logged.
The user interrupts the first read of [list_camera_indexes]: the
exception leaves the function, which has no handler, and the handle just
opened is not released. *)
Lemma C6_interrupt_propagates :
  is_Exception KeyboardInterrupt = false /\
  get_camera_names interrupted_host = (inl (Exn KeyboardInterrupt ""), init) /\
  list_camera_indexes_on three_cameras (interrupted_read 0) 10 =
    (inl (Exn KeyboardInterrupt ""), [VideoCapture 0 true]).
Proof. repeat split; vm_compute; reflexivity. Qed.

(** C9, as the code has it.  On Linux every value of the returned mapping
is a string, and no index is bound to [None]: the output is stripped
before it is cut into lines, so the first of the lines is never indented
and a device name is set before any path line is looked at. *)
Theorem C9_linux_values_are_strings (h : Host) :
  system h = "Linux" ->
  (forall m idx v,
     fst (get_camera_names h) = inr m -> m !! idx = Some v ->
     exists name, v = Some name) /\
  (forall text l ls,
     subprocess_run h ["v4l2-ctl"; "--list-devices"] = inr text ->
     splitlines (strip text) = l :: ls ->
     startswith l TAB = false).
Proof.
  intros Hsys. split.
  - intros m idx v Hm Hv.
    destruct (subprocess_run h ["v4l2-ctl"; "--list-devices"]) as [e|text] eqn:Hrun.
    + rewrite (linux_failure h e Hsys Hrun) in Hm.
      destruct (is_Exception (exc e)); [|discriminate Hm].
      injection Hm as <-. by rewrite lookup_empty in Hv.
    + rewrite (linux_names_eq h text Hsys Hrun) in Hm.
      injection Hm as <-.
      by apply (linux_values_are_strings text idx v Hv).
  - intros text l ls _ Hlines.
    destruct (first_line_not_indented text) as [Hnil | (l' & ls' & Heq & Hl)];
      rewrite Hlines in *; [done|].
    by injection Heq as -> _.
Qed.

Lemma C9_linux_values_are_strings_witness :
  system (linux_host ("USB Camera:" +:+ LF +:+ TAB +:+ "/dev/video0" +:+ LF)) = "Linux" /\
  fst (get_camera_names (linux_host ("USB Camera:" +:+ LF +:+ TAB +:+ "/dev/video0" +:+ LF)))
  = inr {[ 0 := Some "USB Camera:" ]} /\
  exists name, Some "USB Camera:" = Some name.
Proof.
  split; [reflexivity|]. split; [vm_compute; reflexivity|].
  destruct (C9_linux_values_are_strings
              (linux_host ("USB Camera:" +:+ LF +:+ TAB +:+ "/dev/video0" +:+ LF)))
    as [Hvalues _]; [reflexivity|].
  apply (Hvalues {[ 0 := Some "USB Camera:" ]} 0 (Some "USB Camera:")).
  - vm_compute. reflexivity.
  - vm_compute. reflexivity.
Defined.

(** C9 as stated fails: the only line of this output is an indented
device path with the readable index 0 and no device name before it, and
the mapping returned binds nothing, so 0 is not bound to [None]. *)
Lemma C9_indented_first_line_binds_nothing :
  splitlines (TAB +:+ "/dev/video0" +:+ LF) = [TAB +:+ "/dev/video0"] /\
  startswith (TAB +:+ "/dev/video0") TAB = true /\
  path_index (strip (TAB +:+ "/dev/video0")) = Some 0 /\
  fst (get_camera_names (linux_host (TAB +:+ "/dev/video0" +:+ LF))) = inr ∅ /\
  (∅ : gmap Z (option string)) !! 0 <> Some None.
Proof.
  split; [reflexivity|]. split; [reflexivity|]. split; [reflexivity|].
  split; [vm_compute; reflexivity|]. by rewrite lookup_empty.
Qed.
End CameraNames.

(** ** Binary64: equal finite readings have a zero difference *)

Section FloatFacts.

Lemma Prim2SF_zero : Prim2SF 0%float = S754_zero false.
Proof. reflexivity. Qed.

Lemma Prim2SF_infinity : Prim2SF infinity = S754_infinity false.
Proof. reflexivity. Qed.

Lemma finite_cases (x : float) :
  is_finite x = true ->
  (exists s, Prim2SF x = S754_zero s) \/ (exists s m e, Prim2SF x = S754_finite s m e).
Proof.
  unfold is_finite, is_nan, is_infinity.
  rewrite !FloatAxioms.eqb_spec, FloatAxioms.abs_spec, Prim2SF_infinity.
  destruct (Prim2SF x) as [s| s | |s m e]; intros H.
  - eauto.
  - destruct s; cbv in H; discriminate.
  - cbv in H; discriminate.
  - eauto 6.
Qed.

Lemma compare_cont_eq (m1 m2 : positive) :
  Pos.compare_cont Eq m1 m2 = Eq -> m1 = m2.
Proof. apply Pos.compare_eq. Qed.

Lemma SFeqb_finite (s1 s2 : bool) (m1 m2 : positive) (e1 e2 : Z) :
  SFeqb (S754_finite s1 m1 e1) (S754_finite s2 m2 e2) = true ->
  s1 = s2 /\ m1 = m2 /\ e1 = e2.
Proof.
  unfold SFeqb, SFcompare.
  destruct s1, s2; try discriminate;
    destruct (Z.compare_spec e1 e2) as [->| |]; try discriminate;
    destruct (Pos.compare_cont Eq m1 m2) eqn:Hm; try discriminate;
    apply compare_cont_eq in Hm; auto.
Qed.

(** [now == fps_time] on finite readings makes [now - fps_time] a zero. *)
Lemma sub_equal_is_zero (x y : float) :
  is_finite x = true -> (x =? y)%float = true -> (x - y =? 0)%float = true.
Proof.
  intros Hx Heq. rewrite FloatAxioms.eqb_spec in Heq.
  rewrite FloatAxioms.eqb_spec, FloatAxioms.sub_spec, Prim2SF_zero.
  destruct (finite_cases x Hx) as [[s Hs] | [s [m [e Hs]]]]; rewrite Hs in *;
    destruct (Prim2SF y) as [sy|sy| |sy my ey];
    try (destruct s; try destruct sy; cbv in Heq; discriminate).
  - by destruct s, sy.
  - apply SFeqb_finite in Heq as [<- [<- <-]].
    unfold SF64sub, SFsub. rewrite Z.sub_diag. reflexivity.
Qed.
End FloatFacts.

(** ** The detection loop, one iteration at a time *)

Section LoopSteps.
Import PyStr PhoneDetector LoopSpec.
Variables (args : Args) (w : World).

Ltac norm :=
  unfold set_frame_count, set_fps_time, draw;
  cbn [fps_time frame_count trace negb call_eqb image overlays app].

Ltac unfold_body :=
  unfold loop_body, cap_read, annotate, update_fps, interruptible, truediv,
    PhoneDetector.print, emit, bind, modify, get, pure, raise;
  norm.

(** An iteration after which the loop goes on. *)
Lemma loop_body_continues (t : Tick) (s s1 : LState) :
  loop_body args w t s = (inr true, s1) ->
  read_ret t = true /\
  frame_count s1 = frame_count s + 1 /\
  fps_time s1 = (if (frame_count s + 1) mod 10 =? 0 then now t else fps_time s) /\
  trace s1 =
    trace s ++
    Read true ::
    (if show args then
       [ImShow (if (frame_count s + 1) mod 10 =? 0
                then draw (FpsText (10 / (now t - fps_time s))%float) (scanned w t)
                else scanned w t)]
     else [Print (status_line (frame_count s + 1) (detected w t))]).
Proof.
  unfold_body.
  destruct (sigint t) as [[]|]; norm; try discriminate.
  all: destruct (read_ret t); norm; try discriminate.
  all: rewrite scan_boxes_eq; norm.
  all: destruct ((frame_count s + 1) mod 10 =? 0); norm.
  all: try (destruct (now t - fps_time s =? 0)%float; norm; try discriminate).
  all: destruct (show args); norm; try discriminate.
  all: try (destruct (Z.land (key t) 255 =? 113); try discriminate).
  all: intros H; injection H as <-; unfold scanned, detected, status_line; norm;
    rewrite <- ?app_assoc; done.
Qed.

(** [KeyboardInterrupt] during the inference of a frame that was read. *)
Lemma loop_body_interrupted (t : Tick) (s : LState) :
  sigint t = Some InModel -> read_ret t = true ->
  loop_body args w t s =
    (inl (Exn KeyboardInterrupt ""),
     {| fps_time := fps_time s; frame_count := frame_count s + 1;
        trace := trace s ++ [Read true] |}).
Proof. intros Hi Hr. unfold_body. rewrite Hi, Hr. reflexivity. Qed.

(** The read fails: the loop is left. *)
Lemma loop_body_read_fails (t : Tick) (s : LState) :
  sigint t = None -> read_ret t = false ->
  loop_body args w t s =
    (inr false,
     {| fps_time := fps_time s; frame_count := frame_count s;
        trace := trace s ++ [Read false; Print "Failed to read frame from camera."] |}).
Proof.
  intros Hi Hr. unfold_body. rewrite Hi, Hr. norm.
  by rewrite <- app_assoc.
Qed.

(** A tenth frame on which the clock has not moved. *)
Lemma loop_body_zero_division (t : Tick) (s : LState) :
  (frame_count s + 1) mod 10 = 0 ->
  sigint t = None -> read_ret t = true ->
  is_finite (now t) = true -> (now t =? fps_time s)%float = true ->
  loop_body args w t s =
    (inl (Exn ZeroDivisionError "float division by zero"),
     {| fps_time := fps_time s; frame_count := frame_count s + 1;
        trace := trace s ++ [Read true] |}).
Proof.
  intros Hten Hi Hr Hfin Heq. unfold_body. rewrite Hi, Hr. norm.
  rewrite scan_boxes_eq. norm.
  rewrite Hten. cbn [Z.eqb].
  by rewrite (sub_equal_is_zero _ _ Hfin Heq).
Qed.

(** As long as the loop goes on, every iteration went on. *)
Lemma while_true_running (ticks : list Tick) (s s' : LState) :
  while_true args w ticks s = (inr Running, s') ->
  frame_count s' = frame_count s + Z.of_nat (length ticks) /\
  fps_time s' = baseline (fps_time s) (frame_count s) ticks /\
  (show args = false ->
   stdout (trace s') = stdout (trace s) ++ status_lines w (frame_count s) ticks /\
   shown (trace s') = shown (trace s)) /\
  (show args = true ->
   shown (trace s') = shown (trace s) ++ displayed w (fps_time s) (frame_count s) ticks /\
   stdout (trace s') = stdout (trace s)).
Proof.
  revert s; induction ticks as [|t ticks IH]; intros s; cbn [while_true].
  - intros H. injection H as <-. cbn [length baseline status_lines displayed].
    rewrite !app_nil_r. repeat split; auto; lia.
  - unfold bind at 1.
    destruct (loop_body args w t s) as [[e|[]] s1] eqn:Hb; try discriminate.
    intros Hrun.
    destruct (loop_body_continues _ _ _ Hb) as (_ & Hfc & Hft & Htr).
    destruct (IH _ Hrun) as (Hfc' & Hft' & Hno & Hyes). clear IH.
    cbn [length baseline status_lines displayed].
    split; [lia|]. split; [by rewrite Hft', Hft, Hfc|]. split.
    + intros Hs. destruct (Hno Hs) as [Hout Hsh].
      rewrite Hout, Hsh, Htr, Hs, Hfc. unfold stdout, shown.
      rewrite !omap_app. cbn [omap]. by rewrite app_nil_r, <- app_assoc.
    + intros Hs. destruct (Hyes Hs) as [Hsh Hout].
      rewrite Hout, Hsh, Htr, Hs, Hfc, Hft. unfold stdout, shown.
      rewrite !omap_app. cbn [omap]. rewrite app_nil_r, <- app_assoc.
      by destruct ((frame_count s + 1) mod 10 =? 0).
Qed.

Lemma while_true_app (pre rest : list Tick) (s s1 : LState) :
  while_true args w pre s = (inr Running, s1) ->
  while_true args w (pre ++ rest) s = while_true args w rest s1.
Proof.
  revert s; induction pre as [|t pre IH]; intros s; cbn [while_true app].
  - intros H. by injection H as <-.
  - unfold bind.
    destruct (loop_body args w t s) as [[e|[]] s2]; try discriminate.
    apply IH.
Qed.

(** *** The whole of [main] *)

Lemma main_camera_open (ticks : list Tick) :
  opened w = true ->
  main args w ticks =
    (let '(r, s) := try_loop args w ticks (loop_start args w) in (outcome_of r, s)).
Proof.
  intros Ho. unfold main, main_body, PhoneDetector.print, emit, bind, modify.
  rewrite Ho. reflexivity.
Qed.

Lemma try_loop_running (ticks : list Tick) (s s' : LState) :
  try_loop args w ticks s = (inr Running, s') <->
  while_true args w ticks s = (inr Running, s').
Proof.
  unfold try_loop.
  destruct (while_true args w ticks s) as [[e|[]] s1] eqn:Hw; [| |done].
  - unfold try_finally, try_except. rewrite Hw.
    split; [|discriminate].
    destruct (exc_class_eqb KeyboardInterrupt (exc e)); discriminate.
  - unfold try_finally, try_except. rewrite Hw.
    split; discriminate.
Qed.

Lemma main_still_running (ticks : list Tick) (s : LState) :
  main args w ticks = (StillRunning, s) ->
  opened w = true /\ while_true args w ticks (loop_start args w) = (inr Running, s).
Proof.
  destruct (opened w) eqn:Ho.
  - rewrite main_camera_open by done.
    destruct (try_loop args w ticks (loop_start args w)) as [[e|[]] s1] eqn:Ht;
      try discriminate.
    intros H. injection H as <-. split; [done|]. by apply try_loop_running.
  - unfold main, main_body, PhoneDetector.print, emit, bind, modify.
    rewrite Ho. discriminate.
Qed.

(** An exception of an iteration: the handler takes [KeyboardInterrupt]
only, and the cleanup runs either way. *)
Lemma try_loop_raises (pre rest : list Tick) (t : Tick) (s0 s s1 : LState) (e : exn) :
  while_true args w pre s0 = (inr Running, s) ->
  loop_body args w t s = (inl e, s1) ->
  try_loop args w (pre ++ t :: rest) s0 =
    if exc_class_eqb KeyboardInterrupt (exc e) then
      (inr Left,
       {| fps_time := fps_time s1; frame_count := frame_count s1;
          trace := trace s1 ++
                   [Print "Interrupted by user."; Release; DestroyAllWindows;
                    Print "Exiting."] |})
    else
      (inl e,
       {| fps_time := fps_time s1; frame_count := frame_count s1;
          trace := trace s1 ++ [Release; DestroyAllWindows; Print "Exiting."] |}).
Proof.
  intros Hpre Hb.
  assert (Hw : while_true args w (pre ++ t :: rest) s0 = (inl e, s1)).
  { rewrite (while_true_app _ _ _ _ Hpre). cbn [while_true].
    unfold bind at 1. by rewrite Hb. }
  unfold try_loop, try_finally, try_except. rewrite Hw.
  destruct (exc_class_eqb KeyboardInterrupt (exc e));
    unfold cleanup, PhoneDetector.print, emit, bind, modify, pure; norm;
    by rewrite <- ?app_assoc.
Qed.

(** A [break]: the cleanup runs and the statement ends. *)
Lemma try_loop_breaks (pre rest : list Tick) (t : Tick) (s0 s s1 : LState) :
  while_true args w pre s0 = (inr Running, s) ->
  loop_body args w t s = (inr false, s1) ->
  try_loop args w (pre ++ t :: rest) s0 =
    (inr Left,
     {| fps_time := fps_time s1; frame_count := frame_count s1;
        trace := trace s1 ++ [Release; DestroyAllWindows; Print "Exiting."] |}).
Proof.
  intros Hpre Hb.
  assert (Hw : while_true args w (pre ++ t :: rest) s0 = (inr Left, s1)).
  { rewrite (while_true_app _ _ _ _ Hpre). cbn [while_true].
    unfold bind at 1. by rewrite Hb. }
  unfold try_loop, try_finally, try_except. rewrite Hw.
  unfold cleanup, PhoneDetector.print, emit, bind, modify, pure; norm.
  by rewrite <- ?app_assoc.
Qed.
End LoopSteps.

(** ** The detection loop: console lines, frame rate, failures *)

Section MainLoop.
Import PyStr PhoneDetector LoopSpec.

Lemma status_lines_length (w : World) (ticks : list Tick) (n : Z) :
  length (status_lines w n ticks) = length ticks.
Proof.
  revert n; induction ticks as [|t ticks IH]; intros n; simpl; [done|].
  by rewrite IH.
Qed.

Lemma status_lines_lookup (w : World) (ticks : list Tick) (n : Z) (k : nat) (t : Tick) :
  ticks !! k = Some t ->
  status_lines w n ticks !! k = Some (status_line (n + Z.of_nat k + 1) (detected w t)).
Proof.
  revert n k; induction ticks as [|t' ticks IH]; intros n k; [done|].
  destruct k as [|k]; cbn [status_lines]; simpl lookup.
  - intros H. injection H as ->. do 3 f_equal. lia.
  - intros H. rewrite (IH _ _ H). do 3 f_equal. lia.
Qed.

Lemma baseline_snoc (pre : list Tick) (t : Tick) (base : float) (n : Z) :
  baseline base n (pre ++ [t]) =
    if (n + Z.of_nat (length pre) + 1) mod 10 =? 0 then now t else baseline base n pre.
Proof.
  revert base n; induction pre as [|t' pre IH]; intros base n.
  - cbn [app baseline length]. by replace (n + Z.of_nat 0 + 1) with (n + 1) by lia.
  - cbn [app baseline length]. rewrite IH.
    by replace (n + 1 + Z.of_nat (length pre) + 1)
      with (n + Z.of_nat (S (length pre)) + 1) by lia.
Qed.

Lemma displayed_lookup (w : World) (ticks : list Tick) (base : float) (n : Z)
      (k : nat) (t : Tick) :
  ticks !! k = Some t ->
  displayed w base n ticks !! k =
    Some (if (n + Z.of_nat k + 1) mod 10 =? 0
          then draw (FpsText (10 / (now t - baseline base n (take k ticks)))%float)
                    (scanned w t)
          else scanned w t).
Proof.
  revert base n k; induction ticks as [|t' ticks IH]; intros base n k; [done|].
  destruct k as [|k].
  - intros H. injection H as ->. cbn [displayed take baseline].
    replace (n + Z.of_nat 0 + 1) with (n + 1) by lia.
    by destruct ((n + 1) mod 10 =? 0).
  - intros H. cbn [take baseline].
    replace (n + Z.of_nat (S k) + 1) with (n + 1 + Z.of_nat k + 1) by lia.
    rewrite <- (IH _ _ _ H). cbn [displayed].
    by destruct ((n + 1) mod 10 =? 0).
Qed.

Lemma update_fps_eq (t : Tick) (frame : Frame) (s : LState) :
  update_fps t frame s =
    if frame_count s mod 10 =? 0 then
      if (now t - fps_time s =? 0)%float then
        (inl (Exn ZeroDivisionError "float division by zero"), s)
      else
        (inr (draw (FpsText (10 / (now t - fps_time s))%float) frame),
         set_fps_time (now t) s)
    else (inr frame, s).
Proof.
  unfold update_fps, truediv, bind, get, modify, pure, raise.
  destruct (frame_count s mod 10 =? 0); [|done].
  by destruct (now t - fps_time s =? 0)%float.
Qed.

(** C3, as the code has it.  With the preview disabled, as long as every
iteration has run to its end (the loop is still running after the frames
of the script: no read failed, no interrupt arrived, no frame-rate
division failed), the console shows the two opening lines and then exactly
one status line per frame: line [k] carries the count [k] and
"PHONE DETECTED" if frame [k] had a phone-like detection, "no phone"
otherwise.  If the next read fails, these lines are followed by the two
closing lines and nothing else.  If the next frame is read and the user
interrupts during its inference, one more frame has been read and no
status line is added for it. *)
Theorem C3_status_lines (args : Args) (w : World) (ticks : list Tick) (s : LState) :
  show args = false ->
  main args w ticks = (StillRunning, s) ->
  frame_count s = Z.of_nat (length ticks) /\
  stdout (trace s) =
    ["Loading model: " +:+ model args; "Camera opened. Press 'q' to quit."] ++
    status_lines w 0 ticks /\
  length (status_lines w 0 ticks) = length ticks /\
  (forall k t, ticks !! k = Some t ->
     status_lines w 0 ticks !! k =
       Some ("[" +:+ str (Z.of_nat k + 1) +:+ "] " +:+
             (if detected w t then "PHONE DETECTED" else "no phone"))) /\
  (forall t rest, sigint t = None -> read_ret t = false ->
     fst (main args w (ticks ++ t :: rest)) = Returned /\
     stdout (trace (snd (main args w (ticks ++ t :: rest)))) =
       ["Loading model: " +:+ model args; "Camera opened. Press 'q' to quit."] ++
       status_lines w 0 ticks ++
       ["Failed to read frame from camera."; "Exiting."]) /\
  (forall t rest, sigint t = Some InModel -> read_ret t = true ->
     fst (main args w (ticks ++ t :: rest)) = Returned /\
     frames_read (trace (snd (main args w (ticks ++ t :: rest)))) =
       S (frames_read (trace s)) /\
     stdout (trace (snd (main args w (ticks ++ t :: rest)))) =
       ["Loading model: " +:+ model args; "Camera opened. Press 'q' to quit."] ++
       status_lines w 0 ticks ++
       ["Interrupted by user."; "Exiting."]).
Proof.
  intros Hs Hmain.
  apply main_still_running in Hmain as [Ho Hrun].
  destruct (while_true_running _ _ _ _ _ Hrun) as (Hfc & _ & Hno & _).
  destruct (Hno Hs) as [Hout _].
  split; [exact Hfc|]. split; [exact Hout|].
  split; [apply status_lines_length|].
  split; [intros k t Hk; by rewrite (status_lines_lookup _ _ _ _ _ Hk)|].
  split; intros t rest Hi Hr; rewrite main_camera_open by done.
  - rewrite (try_loop_breaks args w ticks rest t _ _ _ Hrun
               (loop_body_read_fails args w t s Hi Hr)).
    cbn [fst snd outcome_of fps_time frame_count trace]. split; [done|].
    unfold stdout in *. rewrite !omap_app, Hout. cbn [omap].
    by rewrite <- !app_assoc.
  - rewrite (try_loop_raises args w ticks rest t _ _ _ _ Hrun
               (loop_body_interrupted args w t s Hi Hr)).
    cbn [exc exc_class_eqb fst snd outcome_of fps_time frame_count trace].
    split; [done|]. split.
    + unfold frames_read. rewrite !List.filter_app, !length_app. simpl. lia.
    + unfold stdout in *. rewrite !omap_app, Hout. cbn [omap].
      by rewrite <- !app_assoc.
Qed.

Lemma C3_status_lines_witness :
  show (default_args false) = false /\
  fst (main (default_args false) coco_world (session 23)) = StillRunning /\
  stdout (trace (snd (main (default_args false) coco_world (session 23)))) =
    ["Loading model: yolov8n.pt"; "Camera opened. Press 'q' to quit.";
     "[1] no phone"; "[2] no phone"; "[3] no phone"; "[4] no phone";
     "[5] PHONE DETECTED"; "[6] no phone"; "[7] no phone"; "[8] no phone";
     "[9] no phone"; "[10] no phone"; "[11] no phone"; "[12] no phone";
     "[13] no phone"; "[14] no phone"; "[15] no phone"; "[16] no phone";
     "[17] PHONE DETECTED"; "[18] no phone"; "[19] no phone"; "[20] no phone";
     "[21] no phone"; "[22] no phone"; "[23] no phone"].
Proof.
  split; [reflexivity|]. split; [vm_compute; reflexivity|].
  destruct (C3_status_lines (default_args false) coco_world (session 23)
              (snd (main (default_args false) coco_world (session 23))))
    as (_ & -> & _); [reflexivity | vm_compute; reflexivity |].
  vm_compute. reflexivity.
Defined.

(** C3 as stated fails: a frame that was read and during whose inference
the user interrupts gets no status line; neither does a tenth frame on
which the frame-rate division fails. *)
Lemma C3_read_frame_without_status_line :
  main (default_args false) coco_world [interrupted_frame] =
    (Returned,
     {| fps_time := 100%float; frame_count := 1;
        trace := [Print "Loading model: yolov8n.pt"; Open 0 true;
                  Print "Camera opened. Press 'q' to quit."; Read true;
                  Print "Interrupted by user."; Release; DestroyAllWindows;
                  Print "Exiting."] |}) /\
  frames_read (trace (snd (main (default_args false) coco_world [interrupted_frame]))) = 1%nat /\
  List.filter is_status_line
    (stdout (trace (snd (main (default_args false) coco_world [interrupted_frame])))) = [] /\
  frames_read (trace (snd (main (default_args false) coco_world stalled_session))) = 10%nat /\
  length (List.filter is_status_line
            (stdout (trace (snd (main (default_args false) coco_world stalled_session))))) = 9%nat.
Proof. repeat split; vm_compute; reflexivity. Qed.

(** C8. If the camera does not open, [main] prints the error line with
the requested index and returns: no frame is read, nothing is shown, and
[release] is not called. *)
Theorem C8_camera_open_failure (args : Args) (w : World) (ticks : list Tick) :
  opened w = false ->
  main args w ticks =
    (Returned,
     {| fps_time := fps_time start; frame_count := 0;
        trace := [Print ("Loading model: " +:+ model args);
                  Open (cam args) false;
                  Print ("ERROR: Cannot open camera index " +:+ str (cam args))] |}) /\
  (Release ∉ trace (snd (main args w ticks))) /\
  (forall r, Read r ∉ trace (snd (main args w ticks))) /\
  shown (trace (snd (main args w ticks))) = [].
Proof.
  intros Ho.
  assert (Hmain : main args w ticks =
    (Returned,
     {| fps_time := fps_time start; frame_count := 0;
        trace := [Print ("Loading model: " +:+ model args);
                  Open (cam args) false;
                  Print ("ERROR: Cannot open camera index " +:+ str (cam args))] |})).
  { unfold main, main_body, PhoneDetector.print, emit, bind, modify, pure.
    rewrite Ho. reflexivity. }
  rewrite Hmain. cbn [snd trace]. split; [done|].
  split; [|split; [|done]].
  - rewrite !elem_of_cons, elem_of_nil. intros [?|[?|[?|[]]]]; discriminate.
  - intros r. rewrite !elem_of_cons, elem_of_nil. intros [?|[?|[?|[]]]]; discriminate.
Qed.

Lemma C8_camera_open_failure_witness :
  opened closed_world = false /\
  stdout (trace (snd (main (default_args true) closed_world (session 3)))) =
    ["Loading model: yolov8n.pt"; "ERROR: Cannot open camera index 0"].
Proof.
  split; [reflexivity|].
  destruct (C8_camera_open_failure (default_args true) closed_world (session 3))
    as (-> & _); [reflexivity|].
  reflexivity.
Defined.

(** C10. The division of the frame-rate block is not guarded: when the
loop reaches a frame whose count is a multiple of 10 and the clock reading
equals the baseline, the division raises [ZeroDivisionError]; the handler
of the loop, which takes [KeyboardInterrupt] only, lets it pass, the
cleanup of [finally] runs (release, windows closed, "Exiting."), and the
exception leaves [main].  An interrupt at the same place is caught. *)
Theorem C10_zero_elapsed_division (args : Args) (w : World) (pre rest : list Tick)
        (t : Tick) (s : LState) :
  main args w pre = (StillRunning, s) ->
  (frame_count s + 1) mod 10 = 0 ->
  read_ret t = true ->
  is_finite (now t) = true ->
  (now t =? fps_time s)%float = true ->
  (sigint t = None ->
   main args w (pre ++ t :: rest) =
     (Raised (Exn ZeroDivisionError "float division by zero"),
      {| fps_time := fps_time s; frame_count := frame_count s + 1;
         trace := trace s ++ [Read true; Release; DestroyAllWindows; Print "Exiting."] |})) /\
  (sigint t = Some InModel ->
   main args w (pre ++ t :: rest) =
     (Returned,
      {| fps_time := fps_time s; frame_count := frame_count s + 1;
         trace := trace s ++ [Read true; Print "Interrupted by user."; Release;
                              DestroyAllWindows; Print "Exiting."] |})).
Proof.
  intros Hmain Hten Hr Hfin Heq.
  apply main_still_running in Hmain as [Ho Hrun].
  split; intros Hi; rewrite main_camera_open by done.
  - rewrite (try_loop_raises args w pre rest t _ _ _ _ Hrun
               (loop_body_zero_division args w t s Hten Hi Hr Hfin Heq)).
    cbn [exc exc_class_eqb outcome_of fps_time frame_count trace].
    by rewrite <- app_assoc.
  - rewrite (try_loop_raises args w pre rest t _ _ _ _ Hrun
               (loop_body_interrupted args w t s Hi Hr)).
    cbn [exc exc_class_eqb outcome_of fps_time frame_count trace].
    by rewrite <- app_assoc.
Qed.

Lemma C10_zero_elapsed_division_witness :
  fst (main (default_args false) coco_world (stalled_session)) =
    Raised (Exn ZeroDivisionError "float division by zero") /\
  stdout (trace (snd (main (default_args false) coco_world stalled_session))) =
    ["Loading model: yolov8n.pt"; "Camera opened. Press 'q' to quit.";
     "[1] no phone"; "[2] no phone"; "[3] no phone"; "[4] no phone"; "[5] no phone";
     "[6] no phone"; "[7] no phone"; "[8] no phone"; "[9] no phone"; "Exiting."].
Proof.
  destruct (C10_zero_elapsed_division (default_args false) coco_world
              (take 9 stalled_session) [] (frame_tick [person_box] 100%float)
              (snd (main (default_args false) coco_world (take 9 stalled_session))))
    as [Hraise _]; try (vm_compute; reflexivity).
  change (take 9 stalled_session ++ [frame_tick [person_box] 100%float])
    with stalled_session in Hraise.
  rewrite Hraise by reflexivity. split; [reflexivity|]. vm_compute. reflexivity.
Defined.
End MainLoop.

(** ** The detection loop on every script *)

Section EveryRun.
Import PyStr PhoneDetector LoopSpec RunSpec.
Variables (args : Args) (w : World).

Ltac norm_step :=
  unfold timed, entered, set_frame_count, set_fps_time, draw, log;
  cbn [fps_time frame_count trace negb call_eqb image overlays app].

Lemma loop_body_step (t : Tick) (s : LState) :
  loop_body args w t s = step args w t s.
Proof.
  unfold step, interrupted_in, division_fails, frame_of, timed, entered.
  unfold loop_body, cap_read, annotate, update_fps, interruptible, truediv,
    PhoneDetector.print, emit, bind, modify, get, pure, raise.
  norm_step.
  destruct (sigint t) as [[]|]; norm_step; try reflexivity.
  all: destruct (read_ret t); norm_step; try (by rewrite <- ?app_assoc).
  all: rewrite scan_boxes_eq; norm_step.
  all: destruct ((frame_count s + 1) mod 10 =? 0); norm_step; cbn [andb].
  all: try (destruct (now t - fps_time s =? 0)%float; norm_step; try reflexivity).
  all: destruct (show args); norm_step.
  all: try (destruct (Z.land (key t) 255 =? 113)).
  all: unfold scanned, detected, status_line; norm_step; rewrite <- ?app_assoc; reflexivity.
Qed.

Ltac step_cases t s :=
  unfold step;
  destruct (interrupted_in InRead t) eqn:?;
  [| destruct (read_ret t) eqn:?; cbn [negb];
     [ destruct (interrupted_in InModel t) eqn:?;
       [| destruct (division_fails t s) eqn:?;
          [| destruct (show args) eqn:?;
             [ destruct (interrupted_in InWaitKey t) eqn:?;
               [| destruct (Z.land (key t) 255 =? 113) eqn:?; cbn [negb] ] |] ] ] |] ].

(** What an iteration adds to the trace, and what it does to the counter. *)
Lemma step_events (t : Tick) (s : LState) :
  exists evs,
    trace (snd (step args w t s)) = trace s ++ evs /\
    forallb loop_event evs = true /\
    frame_count (snd (step args w t s)) = frame_count s + Z.of_nat (frames_read evs) /\
    (show args = false -> shown evs = []) /\
    (show args = true -> stdout evs = [] \/
       (stdout evs = ["Failed to read frame from camera."] /\
        fst (step args w t s) = inr false)).
Proof.
  step_cases t s; cbn [snd fst]; norm_step;
    try destruct ((frame_count s + 1) mod 10 =? 0); norm_step;
    eexists; (split; [rewrite <- ?app_assoc; cbn [app]; try reflexivity;
                      by rewrite app_nil_r |]);
    cbn; repeat split; try lia; try done; intros; auto; try congruence.
Qed.

Lemma while_true_cons (t : Tick) (ticks : list Tick) (s : LState) :
  while_true args w (t :: ticks) s =
    match step args w t s with
    | (inr true, s1) => while_true args w ticks s1
    | (inr false, s1) => (inr Left, s1)
    | (inl e, s1) => (inl e, s1)
    end.
Proof.
  cbn [while_true]. unfold bind. rewrite loop_body_step.
  by destruct (step args w t s) as [[e|[]] s1].
Qed.

(** Whatever the script, a run of the loop adds loop events only, and the
counter grows by the number of successful reads. *)
Lemma while_true_events (ticks : list Tick) (s : LState) :
  exists evs,
    trace (snd (while_true args w ticks s)) = trace s ++ evs /\
    forallb loop_event evs = true /\
    frame_count (snd (while_true args w ticks s)) =
      frame_count s + Z.of_nat (frames_read evs) /\
    (show args = false -> shown evs = []).
Proof.
  revert s; induction ticks as [|t ticks IH]; intros s.
  - exists []. cbn. rewrite app_nil_r. repeat split; auto; lia.
  - rewrite while_true_cons.
    destruct (step_events t s) as (evs & Htr & Hev & Hfc & Hsh & _).
    destruct (step args w t s) as [[e|[]] s1]; cbn [snd] in *.
    + exists evs. auto.
    + destruct (IH s1) as (evs' & Htr' & Hev' & Hfc' & Hsh').
      exists (evs ++ evs'). rewrite Htr', Htr, Hfc', Hfc, <- app_assoc.
      split; [done|]. split; [by rewrite forallb_app, Hev, Hev'|]. split.
      * unfold frames_read. rewrite List.filter_app, length_app. lia.
      * intros Hs. unfold shown in *. by rewrite omap_app, Hsh, Hsh'.
    + exists evs. auto.
Qed.

(** The [try] statement in terms of the result of the loop. *)
Lemma try_loop_eq (ticks : list Tick) (s : LState) :
  try_loop args w ticks s =
    match while_true args w ticks s with
    | (inr Running, s') => (inr Running, s')
    | (inr Left, s') => (inr Left, log [Release; DestroyAllWindows; Print "Exiting."] s')
    | (inl e, s') =>
        if exc_class_eqb KeyboardInterrupt (exc e) then
          (inr Left,
           log [Print "Interrupted by user."; Release; DestroyAllWindows; Print "Exiting."] s')
        else (inl e, log [Release; DestroyAllWindows; Print "Exiting."] s')
    end.
Proof.
  unfold try_loop, try_finally, try_except.
  destruct (while_true args w ticks s) as [[e|[]] s']; [| |done].
  - destruct (exc_class_eqb KeyboardInterrupt (exc e));
      unfold cleanup, PhoneDetector.print, emit, bind, modify, pure; norm_step;
      by rewrite <- ?app_assoc.
  - unfold cleanup, PhoneDetector.print, emit, bind, modify, pure; norm_step.
    by rewrite <- ?app_assoc.
Qed.

Lemma step_count (t : Tick) (s : LState) :
  frame_count (snd (step args w t s)) <= frame_count s + 1.
Proof.
  step_cases t s; cbn [snd]; norm_step;
    try destruct ((frame_count s + 1) mod 10 =? 0); norm_step; lia.
Qed.

Lemma while_true_count (ticks : list Tick) (s : LState) :
  frame_count (snd (while_true args w ticks s)) <= frame_count s + Z.of_nat (length ticks).
Proof.
  revert s; induction ticks as [|t ticks IH]; intros s; [cbn; lia|].
  rewrite while_true_cons. pose proof (step_count t s) as Hc.
  destruct (step args w t s) as [[e|[]] s1]; cbn [snd length] in *; try lia.
  specialize (IH s1). lia.
Qed.

(** The ways an iteration does not ask for the next one. *)
Lemma step_stops (t : Tick) (s : LState) :
  fst (step args w t s) <> inr true ->
  step args w t s = (inl (Exn KeyboardInterrupt ""), s) \/
  step args w t s =
    (inr false, log [Read false; Print "Failed to read frame from camera."] s) \/
  step args w t s = (inl (Exn KeyboardInterrupt ""), entered s) \/
  (step args w t s = (inl (Exn ZeroDivisionError "float division by zero"), entered s) /\
   (frame_count s + 1) mod 10 = 0) \/
  (show args = true /\
   step args w t s =
     (inl (Exn KeyboardInterrupt ""), log [ImShow (frame_of w t s)] (timed t s))) \/
  (show args = true /\ Z.land (key t) 255 = 113 /\
   step args w t s = (inr false, log [ImShow (frame_of w t s)] (timed t s))).
Proof.
  step_cases t s; cbn [fst]; intros Hstop; try done; auto 10.
  - right. right. right. left. split; [done|].
    unfold division_fails in *.
    match goal with H : _ && _ = true |- _ => apply andb_true_iff in H as [H _] end.
    lia.
  - right. right. right. right. right. repeat split; auto. lia.
Qed.

(** A run either is still going or has stopped at one iteration, all the
iterations before it having asked for the next. *)
Lemma run_cases (ticks : list Tick) (s : LState) :
  (exists s', while_true args w ticks s = (inr Running, s')) \/
  (exists pre t rest s1,
     ticks = pre ++ t :: rest /\
     while_true args w pre s = (inr Running, s1) /\
     fst (step args w t s1) <> inr true /\
     while_true args w ticks s =
       (match fst (step args w t s1) with inl e => inl e | inr _ => inr Left end,
        snd (step args w t s1))).
Proof.
  revert s; induction ticks as [|t ticks IH]; intros s.
  - left. by exists s.
  - rewrite while_true_cons.
    destruct (step args w t s) as [[e|[]] s1] eqn:Hstep.
    + right. exists [], t, ticks, s. rewrite Hstep. by repeat split.
    + destruct (IH s1) as [[s' Hrun] | (pre & t' & rest & s2 & -> & Hpre & Hne & Hw)].
      * left. by exists s'.
      * right. exists (t :: pre), t', rest, s2.
        split; [done|]. split; [by rewrite while_true_cons, Hstep|].
        by split.
    + right. exists [], t, ticks, s. rewrite Hstep. by repeat split.
Qed.

Lemma main_cases (ticks : list Tick) :
  opened w = true ->
  (exists s, main args w ticks = (StillRunning, s) /\
             while_true args w ticks (loop_start args w) = (inr Running, s)) \/
  (exists pre t rest s1,
     ticks = pre ++ t :: rest /\
     main args w pre = (StillRunning, s1) /\
     while_true args w pre (loop_start args w) = (inr Running, s1) /\
     fst (step args w t s1) <> inr true /\
     main args w ticks = finish (fst (step args w t s1)) (snd (step args w t s1))).
Proof.
  intros Ho. rewrite !main_camera_open by done.
  destruct (run_cases ticks (loop_start args w))
    as [[s' Hrun] | (pre & t & rest & s1 & -> & Hpre & Hne & Hw)].
  - left. exists s'. rewrite try_loop_eq, Hrun. done.
  - right. exists pre, t, rest, s1. split; [done|].
    rewrite main_camera_open by done. rewrite !try_loop_eq, Hpre, Hw.
    split; [done|]. split; [done|]. split; [done|].
    destruct (step args w t s1) as [[e|[]] s2]; cbn [fst snd finish]; [|done|done].
    by destruct (exc_class_eqb KeyboardInterrupt (exc e)).
Qed.
End EveryRun.

(** ** [main]: what every run keeps *)

Section MainRuns.
Import PyStr PhoneDetector LoopSpec RunSpec.

Ltac in_closing :=
  unfold closing_lines;
  repeat first [apply list_elem_of_here | apply list_elem_of_further].

Lemma loop_events_no_release (evs : list Event) :
  forallb loop_event evs = true -> List.filter is_release evs = [].
Proof.
  induction evs as [|e evs IH]; [done|]. cbn [forallb List.filter].
  intros H. apply andb_true_iff in H as [He Hevs].
  destruct e; try discriminate; cbn; auto.
Qed.

Lemma main_camera_closed (args : Args) (w : World) (ticks : list Tick) :
  opened w = false ->
  main args w ticks =
    (Returned,
     {| fps_time := fps_time start; frame_count := 0;
        trace := [Print ("Loading model: " +:+ model args); Open (cam args) false;
                  Print ("ERROR: Cannot open camera index " +:+ str (cam args))] |}).
Proof.
  intros Ho. unfold main, main_body, PhoneDetector.print, emit, bind, modify, pure.
  rewrite Ho. reflexivity.
Qed.

(** The state [main] ends in, from the result of the loop. *)
Lemma main_from_loop (args : Args) (w : World) (ticks : list Tick) :
  opened w = true ->
  main args w ticks =
    match while_true args w ticks (loop_start args w) with
    | (inr Running, s) => (StillRunning, s)
    | (inr Left, s) => (Returned, log [Release; DestroyAllWindows; Print "Exiting."] s)
    | (inl e, s) =>
        if exc_class_eqb KeyboardInterrupt (exc e) then
          (Returned,
           log [Print "Interrupted by user."; Release; DestroyAllWindows; Print "Exiting."] s)
        else (Raised e, log [Release; DestroyAllWindows; Print "Exiting."] s)
    end.
Proof.
  intros Ho. rewrite main_camera_open, try_loop_eq by done.
  destruct (while_true args w ticks (loop_start args w)) as [[e|[]] s]; try done.
  by destruct (exc_class_eqb KeyboardInterrupt (exc e)).
Qed.

(** X1. The camera is released exactly once on every way out of the
loop (end of stream, quit key, interrupt, exception), by the three
closing actions in their order; it is released neither while the loop
runs nor when the camera did not open. *)
Theorem main_releases_once (args : Args) (w : World) (ticks : list Tick) :
  length (List.filter is_release (trace (snd (main args w ticks)))) =
    (if opened w && negb (still_running (fst (main args w ticks))) then 1 else 0)%nat /\
  (opened w = true -> still_running (fst (main args w ticks)) = false ->
   exists tr,
     trace (snd (main args w ticks)) =
       tr ++ [Release; DestroyAllWindows; Print "Exiting."] /\
     List.filter is_release tr = []).
Proof.
  destruct (opened w) eqn:Ho.
  - rewrite main_from_loop by done.
    destruct (while_true_events args w ticks (loop_start args w))
      as (evs & Htr & Hev & _).
    apply loop_events_no_release in Hev.
    destruct (while_true args w ticks (loop_start args w)) as [[e|[]] s];
      cbn [snd] in Htr; [destruct (exc_class_eqb KeyboardInterrupt (exc e))| |];
      cbn [fst snd still_running andb negb log trace]; rewrite Htr;
      rewrite ?List.filter_app, ?Hev; cbn; (split; [done|]); intros _ Hrun;
      try discriminate.
    + exists (trace (loop_start args w) ++ evs ++ [Print "Interrupted by user."]).
      split; [by rewrite <- !app_assoc|].
      by rewrite !List.filter_app, Hev.
    + exists (trace (loop_start args w) ++ evs). split; [by rewrite <- !app_assoc|].
      by rewrite !List.filter_app, Hev.
    + exists (trace (loop_start args w) ++ evs). split; [by rewrite <- !app_assoc|].
      by rewrite !List.filter_app, Hev.
  - rewrite main_camera_closed by done. split; [done|]. discriminate.
Qed.

(** X2. An interrupt of the user during [cap.read()], during the inference
or during [waitKey] never leaves [main]: the loop is left at once,
"Interrupted by user." is printed, the camera is released, the windows are
destroyed, "Exiting." is printed, and [main] returns without reading a
later frame.  The frame under way is counted once its read has returned,
it has been shown when the interrupt comes during [waitKey], and it gets
no status line. *)
Theorem interrupt_is_caught (args : Args) (w : World) (pre rest : list Tick) (t : Tick)
        (s : LState) (c : Call) :
  main args w pre = (StillRunning, s) ->
  sigint t = Some c ->
  c = InRead \/
  read_ret t = true /\
  (c = InModel \/ c = InWaitKey /\ show args = true /\ division_fails t s = false) ->
  main args w (pre ++ t :: rest) =
    (Returned,
     log [Print "Interrupted by user."; Release; DestroyAllWindows; Print "Exiting."]
         (match c with
          | InRead => s
          | InModel => entered s
          | InWaitKey => log [ImShow (frame_of w t s)] (timed t s)
          end)).
Proof.
  intros Hmain Hi Hc.
  apply main_still_running in Hmain as [Ho Hrun].
  rewrite main_from_loop by done.
  rewrite (while_true_app _ _ _ _ _ _ Hrun), while_true_cons.
  unfold step, interrupted_in. rewrite Hi.
  destruct Hc as [-> | [Hr [-> | (-> & Hs & Hdiv)]]]; cbn [call_eqb].
  - reflexivity.
  - rewrite Hr. reflexivity.
  - rewrite Hr, Hdiv, Hs. reflexivity.
Qed.

Lemma interrupt_is_caught_witness :
  main (default_args false) coco_world (session 3 ++ interrupted_frame :: session 5) =
    (Returned,
     log [Print "Interrupted by user."; Release; DestroyAllWindows; Print "Exiting."]
         (entered (snd (main (default_args false) coco_world (session 3))))) /\
  frame_count (snd (main (default_args false) coco_world
                      (session 3 ++ interrupted_frame :: session 5))) = 4.
Proof.
  assert (H : main (default_args false) coco_world (session 3 ++ interrupted_frame :: session 5) =
    (Returned,
     log [Print "Interrupted by user."; Release; DestroyAllWindows; Print "Exiting."]
         (entered (snd (main (default_args false) coco_world (session 3)))))).
  { apply (interrupt_is_caught (default_args false) coco_world (session 3) (session 5)
             interrupted_frame (snd (main (default_args false) coco_world (session 3)))
             InModel).
    - vm_compute. reflexivity.
    - reflexivity.
    - right. split; [reflexivity|]. by left. }
  split; [exact H|]. rewrite H. reflexivity.
Defined.

(** X3. The frame counter is the number of successful reads made so far,
on every run: a failed read and an interrupt during the read do not
count, and no read is made without being counted. *)
Theorem main_counts_reads (args : Args) (w : World) (ticks : list Tick) :
  Z.of_nat (frames_read (trace (snd (main args w ticks)))) =
    frame_count (snd (main args w ticks)) /\
  frame_count (snd (main args w ticks)) <= Z.of_nat (length ticks).
Proof.
  destruct (opened w) eqn:Ho.
  - rewrite main_from_loop by done.
    destruct (while_true_events args w ticks (loop_start args w))
      as (evs & Htr & _ & Hfc & _).
    pose proof (while_true_count args w ticks (loop_start args w)) as Hle.
    destruct (while_true args w ticks (loop_start args w)) as [[e|[]] s];
      cbn [snd] in Htr, Hfc, Hle;
      [destruct (exc_class_eqb KeyboardInterrupt (exc e))| |];
      cbn [fst snd log trace frame_count]; rewrite Htr, Hfc;
      unfold frames_read in *; rewrite ?List.filter_app, ?length_app;
      cbn [loop_start trace frame_count List.filter length] in *; lia.
  - rewrite main_camera_closed by done. cbn. lia.
Qed.

Lemma log_log (a b : list Event) (s : LState) : log b (log a s) = log (a ++ b) s.
Proof. unfold log. cbn [fps_time frame_count trace]. by rewrite <- app_assoc. Qed.

Lemma stdout_log (evs : list Event) (s : LState) :
  stdout (trace (log evs s)) = stdout (trace s) ++ stdout evs.
Proof. unfold stdout, log. cbn [trace]. apply omap_app. Qed.

Lemma shown_log (evs : list Event) (s : LState) :
  shown (trace (log evs s)) = shown (trace s) ++ shown evs.
Proof. unfold shown, log. cbn [trace]. apply omap_app. Qed.

Lemma stdout_entered (s : LState) : stdout (trace (entered s)) = stdout (trace s).
Proof. unfold entered, set_frame_count. cbn [trace]. rewrite stdout_log. apply app_nil_r. Qed.

Lemma shown_entered (s : LState) : shown (trace (entered s)) = shown (trace s).
Proof. unfold entered, set_frame_count. cbn [trace]. rewrite shown_log. apply app_nil_r. Qed.

Lemma shown_quiet (evs : list Event) (s : LState) :
  shown evs = [] -> shown (trace (log evs s)) = shown (trace s).
Proof. intros H. by rewrite shown_log, H, app_nil_r. Qed.

Lemma trace_timed (t : Tick) (s : LState) : trace (timed t s) = trace (entered s).
Proof. unfold timed. by destruct ((frame_count s + 1) mod 10 =? 0). Qed.

Lemma frame_count_timed (t : Tick) (s : LState) : frame_count (timed t s) = frame_count s + 1.
Proof. unfold timed. by destruct ((frame_count s + 1) mod 10 =? 0). Qed.

Lemma stdout_timed (t : Tick) (s : LState) : stdout (trace (timed t s)) = stdout (trace s).
Proof. by rewrite trace_timed, stdout_entered. Qed.

Lemma shown_timed (t : Tick) (s : LState) : shown (trace (timed t s)) = shown (trace s).
Proof. by rewrite trace_timed, shown_entered. Qed.

(** X4. With the preview disabled the console of every run, however it
ends, is: the two opening lines, the status lines of the frames 1 to [n] in
order without a gap, then the closing lines of the way the run ended
(none while it runs).  The counter is [n], or [n+1] when the last frame
was read and its iteration cut short. *)
Theorem console_without_preview (args : Args) (w : World) (ticks : list Tick) :
  show args = false -> opened w = true ->
  exists (n : nat) (closing : list string),
    (n <= length ticks)%nat /\
    stdout (trace (snd (main args w ticks))) =
      ["Loading model: " +:+ model args; "Camera opened. Press 'q' to quit."] ++
      status_lines w 0 (take n ticks) ++ closing /\
    match fst (main args w ticks) with
    | StillRunning =>
        n = length ticks /\ closing = [] /\
        frame_count (snd (main args w ticks)) = Z.of_nat n
    | Returned =>
        (closing = ["Failed to read frame from camera."; "Exiting."] /\
         frame_count (snd (main args w ticks)) = Z.of_nat n) \/
        (closing = ["Interrupted by user."; "Exiting."] /\
         (frame_count (snd (main args w ticks)) = Z.of_nat n \/
          frame_count (snd (main args w ticks)) = Z.of_nat n + 1))
    | Raised _ =>
        closing = ["Exiting."] /\
        frame_count (snd (main args w ticks)) = Z.of_nat n + 1
    end.
Proof.
  intros Hs Ho.
  destruct (main_cases args w ticks Ho)
    as [(s & Hmain & Hrun) | (pre & t & rest & s1 & -> & _ & Hpre & Hstop & Hmain)].
  - apply while_true_running in Hrun as (Hfc & _ & Hno & _).
    destruct (Hno Hs) as [Hout _].
    exists (length ticks), []. rewrite Hmain. cbn [fst snd].
    rewrite firstn_all, app_nil_r. split; [done|]. split; [exact Hout|].
    split; [done|]. split; [done|]. exact Hfc.
  - apply while_true_running in Hpre as (Hfc & _ & Hno & _).
    destruct (Hno Hs) as [Hout _]. cbn in Hfc, Hout.
    exists (length pre). rewrite take_app_length, Hmain.
    destruct (step_stops args w t s1 Hstop)
      as [H|[H|[H|[[H _]|[[Hc _]|[Hc _]]]]]]; try congruence;
      rewrite H; cbn [fst snd finish exc exc_class_eqb];
      eexists; (split; [rewrite length_app; cbn; lia|]);
      rewrite stdout_log, ?stdout_log, ?stdout_entered, Hout; cbn [stdout omap app];
      (split; [rewrite <- ?app_assoc; reflexivity|]);
      unfold entered, set_frame_count, log; cbn [frame_count]; rewrite ?Hfc; auto.
Qed.

Lemma console_without_preview_witness :
  exists (n : nat) (closing : list string),
    (n <= 10)%nat /\
    stdout (trace (snd (main (default_args false) coco_world stalled_session))) =
      ["Loading model: yolov8n.pt"; "Camera opened. Press 'q' to quit."] ++
      status_lines coco_world 0 (take n stalled_session) ++ closing /\
    closing = ["Exiting."] /\
    frame_count (snd (main (default_args false) coco_world stalled_session)) =
      Z.of_nat n + 1.
Proof.
  destruct (console_without_preview (default_args false) coco_world stalled_session)
    as (n & closing & Hn & Hout & Hend); [reflexivity | reflexivity |].
  exists n, closing. split; [exact Hn|]. split; [exact Hout|].
  exact Hend.
Defined.

Lemma displayed_length (w : World) (l : list Tick) (base : float) (n : Z) :
  length (displayed w base n l) = length l.
Proof.
  revert base n; induction l as [|t l IH]; intros base n; [done|].
  cbn [displayed]. destruct ((n + 1) mod 10 =? 0); cbn [length]; by rewrite IH.
Qed.

Lemma displayed_snoc (w : World) (pre : list Tick) (t : Tick) (base : float) (n : Z) :
  displayed w base n (pre ++ [t]) =
    displayed w base n pre ++
    [if (n + Z.of_nat (length pre) + 1) mod 10 =? 0
     then draw (FpsText (10 / (now t - baseline base n pre))%float) (scanned w t)
     else scanned w t].
Proof.
  revert base n; induction pre as [|t' pre IH]; intros base n.
  - cbn [app displayed baseline length].
    replace (n + Z.of_nat 0 + 1) with (n + 1) by lia.
    by destruct ((n + 1) mod 10 =? 0).
  - cbn [app displayed baseline length].
    replace (n + Z.of_nat (S (length pre)) + 1)
      with (n + 1 + Z.of_nat (length pre) + 1) by lia.
    destruct ((n + 1) mod 10 =? 0); by rewrite IH.
Qed.

Lemma take_snoc_app (pre rest : list Tick) (t : Tick) :
  take (S (length pre)) (pre ++ t :: rest) = pre ++ [t].
Proof.
  induction pre as [|x pre IH]; cbn [length app take]; [done|].
  by rewrite IH.
Qed.

(** The frames a run has shown, and its console, when the preview is on. *)
Lemma preview_run (args : Args) (w : World) (ticks : list Tick) :
  show args = true -> opened w = true ->
  exists (m : nat) (closing : list string),
    (m <= length ticks)%nat /\
    shown (trace (snd (main args w ticks))) = displayed w (t0 w) 0 (take m ticks) /\
    stdout (trace (snd (main args w ticks))) =
      ["Loading model: " +:+ model args; "Camera opened. Press 'q' to quit."] ++ closing /\
    closing ∈ closing_lines /\
    (frame_count (snd (main args w ticks)) = Z.of_nat m \/
     frame_count (snd (main args w ticks)) = Z.of_nat m + 1).
Proof.
  intros Hs Ho. unfold closing_lines.
  destruct (main_cases args w ticks Ho)
    as [(s & Hmain & Hrun) | (pre & t & rest & s1 & -> & _ & Hpre & Hstop & Hmain)].
  - apply while_true_running in Hrun as (Hfc & _ & _ & Hyes).
    destruct (Hyes Hs) as [Hsh Hout].
    exists (length ticks), []. rewrite Hmain. cbn [fst snd].
    rewrite firstn_all, app_nil_r. split; [done|]. split; [exact Hsh|].
    split; [exact Hout|]. split; [in_closing|]. left. exact Hfc.
  - apply while_true_running in Hpre as (Hfc & Hft & _ & Hyes).
    destruct (Hyes Hs) as [Hsh Hout]. cbn in Hfc, Hft, Hsh, Hout.
    rewrite Hmain.
    destruct (step_stops args w t s1 Hstop)
      as [H|[H|[H|[[H _]|[[_ H]|(_ & _ & H)]]]]];
      rewrite H; cbn [fst snd finish exc exc_class_eqb].
    + exists (length pre), ["Interrupted by user."; "Exiting."].
      rewrite take_app_length, stdout_log, shown_quiet, Hsh, Hout by done.
      split; [rewrite length_app; cbn; lia|]. repeat split; auto. in_closing.
    + exists (length pre), ["Failed to read frame from camera."; "Exiting."].
      rewrite take_app_length, log_log, stdout_log, shown_quiet, Hsh, Hout by done.
      split; [rewrite length_app; cbn; lia|]. repeat split; auto. in_closing.
    + exists (length pre), ["Interrupted by user."; "Exiting."].
      rewrite take_app_length, stdout_log, shown_quiet, stdout_entered, shown_entered,
        Hsh, Hout by done.
      split; [rewrite length_app; cbn; lia|]. repeat split; auto; [in_closing|].
      right. cbn. lia.
    + exists (length pre), ["Exiting."].
      rewrite take_app_length, stdout_log, shown_quiet, stdout_entered, shown_entered,
        Hsh, Hout by done.
      split; [rewrite length_app; cbn; lia|]. repeat split; auto; [in_closing|].
      right. cbn. lia.
    + exists (S (length pre)), ["Interrupted by user."; "Exiting."].
      rewrite take_snoc_app, displayed_snoc, log_log, stdout_log, shown_log,
        stdout_timed, shown_timed, Hsh, Hout.
      split; [rewrite length_app; cbn; lia|].
      unfold frame_of. rewrite Hfc, Hft. repeat split; auto; [in_closing|].
      left. cbn [log frame_count]. rewrite frame_count_timed. lia.
    + exists (S (length pre)), ["Exiting."].
      rewrite take_snoc_app, displayed_snoc, log_log, stdout_log, shown_log,
        stdout_timed, shown_timed, Hsh, Hout.
      split; [rewrite length_app; cbn; lia|].
      unfold frame_of. rewrite Hfc, Hft. repeat split; auto; [in_closing|].
      left. cbn [log frame_count]. rewrite frame_count_timed. lia.
Qed.

(** X5. With the preview on, every run shows its frames in reading order:
the frames shown are those of the first [m] iterations, annotated, and the
console carries no line per frame, only the opening lines and the closing
lines of the way the run ended. *)
Theorem window_with_preview (args : Args) (w : World) (ticks : list Tick) :
  show args = true -> opened w = true ->
  exists (m : nat) (closing : list string),
    (m <= length ticks)%nat /\
    shown (trace (snd (main args w ticks))) = displayed w (t0 w) 0 (take m ticks) /\
    length (shown (trace (snd (main args w ticks)))) = m /\
    stdout (trace (snd (main args w ticks))) =
      ["Loading model: " +:+ model args; "Camera opened. Press 'q' to quit."] ++ closing /\
    closing ∈ closing_lines /\
    (frame_count (snd (main args w ticks)) = Z.of_nat m \/
     frame_count (snd (main args w ticks)) = Z.of_nat m + 1).
Proof.
  intros Hs Ho.
  destruct (preview_run args w ticks Hs Ho) as (m & closing & Hm & Hsh & Hout & Hcl & Hfc).
  exists m, closing. repeat split; auto.
  rewrite Hsh, displayed_length, length_take. lia.
Qed.

Lemma window_with_preview_witness :
  exists (m : nat) (closing : list string),
    (m <= 23)%nat /\
    length (shown (trace (snd (main (default_args true) coco_world (session 23))))) = m /\
    stdout (trace (snd (main (default_args true) coco_world (session 23)))) =
      ["Loading model: yolov8n.pt"; "Camera opened. Press 'q' to quit."] ++ closing.
Proof.
  destruct (window_with_preview (default_args true) coco_world (session 23))
    as (m & closing & Hm & _ & Hlen & Hout & _); [reflexivity | reflexivity |].
  exists m, closing. split; [exact Hm|]. split; [exact Hlen | exact Hout].
Defined.

Lemma step_with_key (args : Args) (w : World) (k : Z) (t : Tick) (s : LState) :
  show args = false -> step args w (with_key k t) s = step args w t s.
Proof. intros Hs. unfold step. rewrite Hs. reflexivity. Qed.

Lemma while_true_with_keys (args : Args) (w : World) (keys : Tick -> Z)
      (ticks : list Tick) (s : LState) :
  show args = false ->
  while_true args w (map (fun t => with_key (keys t) t) ticks) s =
    while_true args w ticks s.
Proof.
  intros Hs. revert s; induction ticks as [|t ticks IH]; intros s; [done|].
  cbn [map]. rewrite !while_true_cons, step_with_key by done.
  destruct (step args w t s) as [[e|[]] s1]; auto.
Qed.

Lemma shown_without_preview (args : Args) (w : World) (ticks : list Tick) :
  show args = false -> shown (trace (snd (main args w ticks))) = [].
Proof.
  intros Hs. destruct (opened w) eqn:Ho; [|by rewrite main_camera_closed].
  rewrite main_from_loop by done.
  destruct (while_true_events args w ticks (loop_start args w))
    as (evs & Htr & _ & _ & Hsh).
  specialize (Hsh Hs).
  destruct (while_true args w ticks (loop_start args w)) as [[e|[]] s];
    cbn [snd] in Htr;
    [destruct (exc_class_eqb KeyboardInterrupt (exc e))| |];
    cbn [snd]; rewrite ?shown_log; unfold shown in *; rewrite Htr, omap_app, Hsh; done.
Qed.

(** X6. With the preview disabled no frame is ever shown and the keyboard
is never asked: the run is the same whatever keys are pressed. *)
Theorem no_preview_no_window (args : Args) (w : World) (ticks : list Tick) :
  show args = false ->
  shown (trace (snd (main args w ticks))) = [] /\
  (forall keys : Tick -> Z,
     main args w (map (fun t => with_key (keys t) t) ticks) = main args w ticks).
Proof.
  intros Hs. split; [by apply shown_without_preview|].
  intros keys. destruct (opened w) eqn:Ho.
  - rewrite !main_from_loop by done. by rewrite while_true_with_keys.
  - by rewrite !main_camera_closed.
Qed.

Lemma no_preview_no_window_witness :
  shown (trace (snd (main (default_args false) coco_world (session 23)))) = [] /\
  main (default_args false) coco_world (map (with_key 113) (session 23)) =
    main (default_args false) coco_world (session 23).
Proof.
  destruct (no_preview_no_window (default_args false) coco_world (session 23))
    as [Hsh Hkeys]; [reflexivity|].
  split; [exact Hsh | exact (Hkeys (fun _ => 113))].
Defined.

Lemma land_255 (k : Z) : Z.land k 255 = k mod 256.
Proof. change 255 with (Z.ones 8). by rewrite Z.land_ones. Qed.

(** X7. With the preview on, the loop is left on a key exactly when the
code returned by [waitKey], taken modulo 256, is 113 (the letter q): the
frame of that iteration has been shown, the cleanup runs, [main] returns
and no later frame is read.  With any other code (with -1, no key, as
well) the loop goes on to the next frame. *)
Theorem quit_key (args : Args) (w : World) (pre rest : list Tick) (t : Tick) (s : LState) :
  show args = true ->
  main args w pre = (StillRunning, s) ->
  sigint t = None -> read_ret t = true -> division_fails t s = false ->
  (key t mod 256 = 113 ->
   main args w (pre ++ t :: rest) =
     (Returned,
      log [ImShow (frame_of w t s); Release; DestroyAllWindows; Print "Exiting."]
          (timed t s))) /\
  (key t mod 256 <> 113 ->
   main args w (pre ++ [t]) = (StillRunning, log [ImShow (frame_of w t s)] (timed t s))).
Proof.
  intros Hs Hmain Hi Hr Hdiv.
  apply main_still_running in Hmain as [Ho Hrun].
  assert (Hstep : step args w t s =
                  (inr (negb (key t mod 256 =? 113)),
                   log [ImShow (frame_of w t s)] (timed t s))).
  { unfold step, interrupted_in. by rewrite Hi, Hr, Hdiv, Hs, land_255. }
  split; intros Hk; rewrite main_from_loop by done;
    rewrite (while_true_app _ _ _ _ _ _ Hrun), while_true_cons, Hstep.
  - rewrite Hk. cbn [Z.eqb Pos.eqb negb]. by rewrite log_log.
  - apply Z.eqb_neq in Hk. rewrite Hk. done.
Qed.

Lemma quit_key_witness :
  fst (main (default_args true) coco_world
            (session 3 ++ with_key (113 + 256) (frame_tick [phone_box] 104%float)
                       :: session 5)) = Returned /\
  frame_count (snd (main (default_args true) coco_world
            (session 3 ++ with_key (113 + 256) (frame_tick [phone_box] 104%float)
                       :: session 5))) = 4.
Proof.
  destruct (quit_key (default_args true) coco_world (session 3) (session 5)
              (with_key (113 + 256) (frame_tick [phone_box] 104%float))
              (snd (main (default_args true) coco_world (session 3))))
    as [Hquit _]; try (vm_compute; reflexivity).
  rewrite Hquit by reflexivity. split; reflexivity.
Defined.

Lemma detected_boxes (w : World) (t : Tick) :
  detected w t = true <-> List.filter (phone_like w) (boxes t) <> [].
Proof.
  unfold detected. induction (boxes t) as [|b l IH]; cbn [existsb List.filter].
  - split; [discriminate | done].
  - destruct (phone_like w b); cbn [orb]; [split; [discriminate | done] | exact IH].
Qed.

(** The overlays of an annotated frame: the boxes of the phone-like
detections, one status text that agrees with them, and at most the
frame-rate text after it. *)
Lemma annotated_overlays (w : World) (t : Tick) (extra : list Overlay) :
  extra = [] \/ (exists x, extra = [FpsText x]) ->
  (forall xyxy label score,
     BoxOverlay xyxy label score ∈ overlays (scanned w t) ++ extra ->
     PyStr.contains "phone" (PyStr.lower label) = true) /\
  ((exists o, o ∈ overlays (scanned w t) ++ extra /\ is_box o = true) <->
   StatusText "PHONE DETECTED" true ∈ overlays (scanned w t) ++ extra) /\
  ((~ exists o, o ∈ overlays (scanned w t) ++ extra /\ is_box o = true) <->
   StatusText "no phone" false ∈ overlays (scanned w t) ++ extra).
Proof.
  intros Hextra. unfold scanned. cbn [overlays].
  pose proof (detected_boxes w t) as Hd.
  set (bs := List.filter (phone_like w) (boxes t)) in *.
  assert (Hbox : forall o, o ∈ (map (box_overlay w) bs ++
                                 [StatusText (status_of (detected w t)) (detected w t)]) ++ extra ->
                           is_box o = true -> o ∈ map (box_overlay w) bs).
  { intros o Ho Hb. rewrite !elem_of_app, elem_of_cons, elem_of_nil in Ho.
    destruct Ho as [[Ho|[->|[]]]|Ho]; [done|discriminate|].
    destruct Hextra as [->|[x ->]]; [by apply elem_of_nil in Ho|].
    apply elem_of_cons in Ho as [->|Ho]; [discriminate|by apply elem_of_nil in Ho]. }
  assert (Hstat : forall txt d, StatusText txt d ∈
                    (map (box_overlay w) bs ++
                     [StatusText (status_of (detected w t)) (detected w t)]) ++ extra <->
                    txt = status_of (detected w t) /\ d = detected w t).
  { intros txt d. rewrite !elem_of_app, elem_of_cons, elem_of_nil. split.
    - intros [[Ho|[Ho|[]]]|Ho].
      + apply list_elem_of_fmap in Ho as (b & Hb & _). discriminate Hb.
      + by injection Ho as -> ->.
      + destruct Hextra as [->|[x ->]]; [by apply elem_of_nil in Ho|].
        apply elem_of_cons in Ho as [Ho|Ho]; [discriminate|by apply elem_of_nil in Ho].
    - intros [-> ->]. left. right. by left. }
  assert (Hany : (exists o, o ∈ (map (box_overlay w) bs ++
                     [StatusText (status_of (detected w t)) (detected w t)]) ++ extra /\
                            is_box o = true) <-> detected w t = true).
  { rewrite Hd. split.
    - intros (o & Ho & Hb). specialize (Hbox o Ho Hb).
      intros Hnil. rewrite Hnil in Hbox. by apply elem_of_nil in Hbox.
    - intros Hne. destruct bs as [|b bs']; [done|].
      exists (box_overlay w b). split; [|done].
      rewrite <- app_assoc. apply elem_of_app. left. apply list_elem_of_here. }
  split; [|split].
  - intros xyxy label score Ho. specialize (Hbox _ Ho eq_refl).
    apply list_elem_of_fmap in Hbox as (b & Heq & Hb).
    injection Heq as -> -> ->.
    apply list_elem_of_In, filter_In in Hb as [_ Hb]. exact Hb.
  - rewrite Hany, Hstat. unfold status_of.
    destruct (detected w t); split; try done; intros [? ?]; done.
  - rewrite Hany, Hstat. unfold status_of.
    destruct (detected w t); split; try done; intros [? ?]; done.
Qed.

(** X8. On every frame a run shows, the boxes drawn are labelled with
names that contain "phone" when lowercased, and the status text agrees
with them: "PHONE DETECTED" is on the frame exactly when at least one box
is, and "no phone" exactly when none is. *)
Theorem shown_frames_consistent (args : Args) (w : World) (ticks : list Tick) (f : Frame) :
  f ∈ shown (trace (snd (main args w ticks))) ->
  (forall xyxy label score,
     BoxOverlay xyxy label score ∈ overlays f ->
     PyStr.contains "phone" (PyStr.lower label) = true) /\
  ((exists o, o ∈ overlays f /\ is_box o = true) <->
   StatusText "PHONE DETECTED" true ∈ overlays f) /\
  ((~ exists o, o ∈ overlays f /\ is_box o = true) <->
   StatusText "no phone" false ∈ overlays f).
Proof.
  intros Hf.
  destruct (opened w) eqn:Ho;
    [|rewrite main_camera_closed in Hf by done; by apply elem_of_nil in Hf].
  destruct (show args) eqn:Hs;
    [|rewrite (shown_without_preview args w ticks Hs) in Hf; by apply elem_of_nil in Hf].
  destruct (preview_run args w ticks Hs Ho) as (m & closing & _ & Hsh & _).
  rewrite Hsh in Hf. apply list_elem_of_lookup in Hf as [k Hk].
  assert (Hlt : (k < length (take m ticks))%nat).
  { rewrite <- (displayed_length w _ (t0 w) 0). by apply lookup_lt_Some in Hk. }
  apply lookup_lt_is_Some in Hlt as [t Ht].
  rewrite (displayed_lookup _ _ _ _ _ _ Ht) in Hk. injection Hk as <-.
  destruct ((0 + Z.of_nat k + 1) mod 10 =? 0).
  - unfold draw. cbn [overlays]. apply annotated_overlays. right. by eexists.
  - rewrite <- (app_nil_r (overlays (scanned w t))). apply annotated_overlays. by left.
Qed.

Lemma shown_frames_consistent_witness :
  StatusText "PHONE DETECTED" true ∈
    overlays {| image := 0%N;
                overlays := [BoxOverlay (10, 20, 110, 220) "cell phone" 0.75%float;
                             StatusText "PHONE DETECTED" true] |}.
Proof.
  destruct (shown_frames_consistent (default_args true) coco_world (session 5)
              {| image := 0%N;
                 overlays := [BoxOverlay (10, 20, 110, 220) "cell phone" 0.75%float;
                              StatusText "PHONE DETECTED" true] |})
    as (_ & Hyes & _).
  - vm_compute. do 4 apply list_elem_of_further. apply list_elem_of_here.
  - apply Hyes. eexists. split; [apply list_elem_of_here | reflexivity].
Defined.
End MainRuns.

(** ** The frame-rate block on every run *)

Section FrameRate.
Import PyStr PhoneDetector LoopSpec RunSpec.

(** What [main] adds after the loop changes neither the baseline, nor the
counter, nor the frames shown. *)
Lemma finish_keeps (r : exn + bool) (s : LState) :
  fps_time (snd (finish r s)) = fps_time s /\
  frame_count (snd (finish r s)) = frame_count s /\
  shown (trace (snd (finish r s))) = shown (trace s) /\
  fst (finish r s) <> StillRunning.
Proof.
  unfold finish. destruct r as [e|b]; [destruct (exc_class_eqb KeyboardInterrupt (exc e))|];
    cbn [fst snd]; rewrite shown_quiet by done; by repeat split.
Qed.

(** An iteration that does not ask for the next one: it was cut before its
frame-rate block was done, or it went through the block and the frame was
shown. *)
Lemma step_cut (args : Args) (w : World) (t : Tick) (s : LState) :
  fst (step args w t s) <> inr true ->
  (fps_time (snd (step args w t s)) = fps_time s /\
   shown (trace (snd (step args w t s))) = shown (trace s) /\
   (frame_count (snd (step args w t s)) = frame_count s \/
    frame_count (snd (step args w t s)) = frame_count s + 1 /\
    read_ret t = true /\
    (sigint t = Some InModel \/
     (frame_count s + 1) mod 10 = 0 /\ (now t - fps_time s =? 0)%float = true))) \/
  (show args = true /\
   snd (step args w t s) = log [ImShow (frame_of w t s)] (timed t s)).
Proof.
  unfold step, interrupted_in.
  destruct (sigint t) as [[]|] eqn:Hi; cbn [call_eqb].
  1: intros _; left; by repeat split; auto.
  all: destruct (read_ret t) eqn:Hr; cbn [negb];
    [| intros _; left; cbn [fst snd]; rewrite shown_quiet by done; by repeat split; auto].
  - intros _. left. cbn [snd]. rewrite shown_entered.
    split; [done|]. split; [done|]. right. split; [cbn; lia|]. by split; [|left].
  - destruct (division_fails t s) eqn:Hd.
    + intros _. left. cbn [snd]. rewrite shown_entered.
      split; [done|]. split; [done|]. right. split; [cbn; lia|]. split; [done|]. right.
      unfold division_fails in Hd. apply andb_true_iff in Hd as [Hm Hz].
      split; [lia | exact Hz].
    + destruct (show args) eqn:Hs; [|done]. intros _. by right.
  - destruct (division_fails t s) eqn:Hd.
    + intros _. left. cbn [snd]. rewrite shown_entered.
      split; [done|]. split; [done|]. right. split; [cbn; lia|]. split; [done|]. right.
      unfold division_fails in Hd. apply andb_true_iff in Hd as [Hm Hz].
      split; [lia | exact Hz].
    + destruct (show args) eqn:Hs; [|done]. intros _. by right.
Qed.

(** C7, as the code has it.  On every run with an opened camera there is a
number [n] of frames that went through the frame-rate block, all the
frames when the run is still going.  The baseline is the clock reading of
the last of these [n] frames whose count is a multiple of 10, and the
reading taken before the loop if there is none; with the preview on, the
frames shown are these [n] frames, and frame [k+1] carries the frame-rate
text exactly when [k+1] is a multiple of 10, the value being 10 divided by
its clock reading minus the baseline of the [k] frames before it.  The
counter is [n], or it is [n+1]: then the frame [n+1] was read and its
iteration cut before the block was done, by an interrupt during the
inference or, on a multiple of 10 only, by the division when the clock
reading equals the baseline; the baseline is not reset and no text is
drawn for that frame.  The block itself acts only when the counter is a
multiple of 10. *)
Theorem C7_fps_every_tenth_frame (args : Args) (w : World) (ticks : list Tick) :
  opened w = true ->
  (exists n : nat,
     (n <= length ticks)%nat /\
     (fst (main args w ticks) = StillRunning -> n = length ticks) /\
     fps_time (snd (main args w ticks)) = baseline (t0 w) 0 (take n ticks) /\
     (show args = true ->
      shown (trace (snd (main args w ticks))) = displayed w (t0 w) 0 (take n ticks)) /\
     (frame_count (snd (main args w ticks)) = Z.of_nat n \/
      frame_count (snd (main args w ticks)) = Z.of_nat n + 1 /\
      fst (main args w ticks) <> StillRunning /\
      exists t,
        ticks !! n = Some t /\ read_ret t = true /\
        (sigint t = Some InModel \/
         (Z.of_nat n + 1) mod 10 = 0 /\
         (now t - baseline (t0 w) 0 (take n ticks) =? 0)%float = true))) /\
  (forall k t, ticks !! k = Some t ->
     displayed w (t0 w) 0 ticks !! k =
       Some (if (Z.of_nat k + 1) mod 10 =? 0
             then draw (FpsText (10 / (now t - baseline (t0 w) 0 (take k ticks)))%float)
                       (scanned w t)
             else scanned w t)) /\
  (forall pre t,
     baseline (t0 w) 0 (pre ++ [t]) =
       if (Z.of_nat (length pre) + 1) mod 10 =? 0 then now t
       else baseline (t0 w) 0 pre) /\
  (forall t frame st,
     update_fps t frame st =
       if frame_count st mod 10 =? 0 then
         if (now t - fps_time st =? 0)%float then
           (inl (Exn ZeroDivisionError "float division by zero"), st)
         else
           (inr (draw (FpsText (10 / (now t - fps_time st))%float) frame),
            set_fps_time (now t) st)
       else (inr frame, st)).
Proof.
  intros Ho. split.
  2: { split; [intros k t Hk; by rewrite (displayed_lookup _ _ _ _ _ _ Hk)|].
       split; [intros pre t; by rewrite baseline_snoc | apply update_fps_eq]. }
  destruct (main_cases args w ticks Ho)
    as [(s & Hmain & Hrun) | (pre & t & rest & s1 & -> & _ & Hpre & Hstop & Hmain)].
  - apply while_true_running in Hrun as (Hfc & Hft & _ & Hyes).
    exists (length ticks). rewrite Hmain, firstn_all. cbn [fst snd].
    split; [done|]. split; [done|]. split; [exact Hft|].
    split; [intros Hs; by destruct (Hyes Hs)|]. left. exact Hfc.
  - apply while_true_running in Hpre as (Hfc & Hft & _ & Hyes).
    cbn [loop_start frame_count fps_time trace] in Hfc, Hft, Hyes.
    rewrite Hmain.
    destruct (finish_keeps (fst (step args w t s1)) (snd (step args w t s1)))
      as (-> & -> & -> & Hend).
    destruct (step_cut args w t s1 Hstop) as [(Hft' & Hsh' & Hcount) | [Hs Hstep]].
    + exists (length pre). rewrite take_app_length, Hft', Hsh'.
      split; [rewrite length_app; cbn; lia|]. split; [done|]. split; [exact Hft|].
      split; [intros Hs; by destruct (Hyes Hs)|].
      destruct Hcount as [-> | (-> & Hr & Hwhy)]; [left; lia | right].
      split; [lia|]. split; [exact Hend|]. exists t.
      split; [by rewrite list_lookup_middle|]. split; [exact Hr|].
      rewrite <- Hft. destruct Hwhy as [Hi | [Hm Hz]]; [by left | right].
      split; [|exact Hz]. by replace (Z.of_nat (length pre) + 1) with (frame_count s1 + 1) by lia.
    + exists (S (length pre)).
      split; [rewrite length_app; cbn; lia|]. split; [intros H; by destruct Hend|].
      rewrite take_snoc_app, Hstep.
      cbn [log fps_time frame_count]. rewrite shown_log, shown_timed, frame_count_timed.
      split; [|split; [|left; lia]].
      * rewrite baseline_snoc. unfold timed. rewrite Hfc.
        replace (0 + Z.of_nat (length pre) + 1) with (Z.of_nat (length pre) + 1) by lia.
        destruct ((Z.of_nat (length pre) + 1) mod 10 =? 0); [done|].
        unfold entered. cbn. exact Hft.
      * intros _. destruct (Hyes Hs) as [-> _]. rewrite displayed_snoc.
        unfold frame_of. by rewrite Hfc, Hft.
Qed.

Lemma C7_fps_every_tenth_frame_witness :
  opened coco_world = true /\
  fps_time (snd (main (default_args true) coco_world (session 23))) = 120%float /\
  map (fun f => List.filter (fun o => match o with FpsText _ => true | _ => false end)
                  (overlays f))
      (shown (trace (snd (main (default_args true) coco_world (session 23))))) =
    [[]; []; []; []; []; []; []; []; []; [FpsText 1%float];
     []; []; []; []; []; []; []; []; []; [FpsText 1%float]; []; []; []].
Proof.
  split; [reflexivity|].
  destruct (C7_fps_every_tenth_frame (default_args true) coco_world (session 23))
    as ((n & _ & Hn & -> & Hshown & _) & _); [reflexivity|].
  rewrite Hshown by reflexivity.
  rewrite Hn by (vm_compute; reflexivity).
  split; vm_compute; reflexivity.
Defined.

(** C7 as stated fails.  The user interrupts the program during the
inference of the tenth frame: the frame is read and counted, the count is
10, and the overlay is not recomputed: the baseline is still the reading
taken before the loop and none of the frames shown carries the frame-rate
text.  The same happens when the clock has not moved by the tenth frame:
the division raises, the count is 10 and the baseline is not reset. *)
Lemma C7_tenth_frame_without_recomputation :
  frame_count (snd (main (default_args true) coco_world (session 9 ++ [interrupted_frame])))
    = 10 /\
  fps_time (snd (main (default_args true) coco_world (session 9 ++ [interrupted_frame])))
    = t0 coco_world /\
  length (shown (trace (snd (main (default_args true) coco_world
                              (session 9 ++ [interrupted_frame]))))) = 9%nat /\
  List.filter (fun o => match o with FpsText _ => true | _ => false end)
    (concat (map overlays
       (shown (trace (snd (main (default_args true) coco_world
                             (session 9 ++ [interrupted_frame]))))))) = [] /\
  main (default_args true) coco_world stalled_session =
    (Raised (Exn ZeroDivisionError "float division by zero"),
     snd (main (default_args true) coco_world stalled_session)) /\
  frame_count (snd (main (default_args true) coco_world stalled_session)) = 10 /\
  fps_time (snd (main (default_args true) coco_world stalled_session)) = t0 coco_world.
Proof. repeat split; vm_compute; reflexivity. Qed.
End FrameRate.

(** ** list_cameras.py: the probe loop, the three platforms, the script *)

Section ProbeTrace.
Import PyStr ListCameras CameraSpec ListSpec.
Lemma created_probes (w : Cameras) (idxs : list Z) :
  created (concat (map (probe_events w) idxs)) = idxs.
Proof.
  induction idxs as [|i idxs IH]; [done|].
  cbn [map concat]. unfold created in *. rewrite omap_app, IH.
  unfold probe_events. by destruct (opens w i).
Qed.

Lemma read_in_probes (w : Cameras) (idxs : list Z) (i : Z) (r : bool) :
  Read i r ∈ concat (map (probe_events w) idxs) <->
  i ∈ idxs /\ opens w i = true /\ r = reads w i.
Proof.
  induction idxs as [|j idxs IH]; cbn [map concat].
  - rewrite !elem_of_nil. split; [intros [] | intros [[] _]].
  - rewrite elem_of_app, IH, elem_of_cons. unfold probe_events.
    destruct (opens w j) eqn:Hj.
    + rewrite !elem_of_cons, elem_of_nil. split.
      * intros [[?|[?|[?|[]]]]|(? & ? & ?)]; try discriminate; [|by auto].
        simplify_eq. auto.
      * intros [[->|?] [? ->]]; [left | right]; auto.
    + rewrite elem_of_cons, elem_of_nil. split.
      * intros [[?|[]]|(? & ? & ?)]; [discriminate | auto].
      * intros [[->|?] [? ?]]; [congruence | right; auto].
Qed.

Lemma capture_in_probes (w : Cameras) (idxs : list Z) (i : Z) (o : bool) :
  VideoCapture i o ∈ concat (map (probe_events w) idxs) -> o = opens w i.
Proof.
  induction idxs as [|j idxs IH]; cbn [map concat].
  - by intros ?%elem_of_nil.
  - rewrite elem_of_app. intros [H|H]; [|auto].
    unfold probe_events in H. apply elem_of_cons in H as [H|H]; [by injection H as -> ->|].
    destruct (opens w j); [|by apply elem_of_nil in H].
    rewrite !elem_of_cons, elem_of_nil in H. destruct H as [?|[?|[]]]; discriminate.
Qed.

(** X9. The probe loop creates one handle per index of [0..max_tested-1],
in ascending order, and none for any other index; it reads from a handle
only when the handle opened, and never from one that did not open.
Nothing is probed when [max_tested <= 0]. *)
Theorem probe_discipline (w : Cameras) (max_tested : Z) :
  created (snd (list_camera_indexes_run w max_tested)) = seqZ 0 max_tested /\
  (forall i o, VideoCapture i o ∈ snd (list_camera_indexes_run w max_tested) ->
               o = opens w i) /\
  (forall i r, Read i r ∈ snd (list_camera_indexes_run w max_tested) <->
               0 <= i < max_tested /\ opens w i = true /\ r = reads w i) /\
  (max_tested <= 0 -> list_camera_indexes_run w max_tested = ([], [])).
Proof.
  unfold list_camera_indexes_run. rewrite probe_loop_eq. cbn [snd]. unfold range.
  split; [apply created_probes|]. split; [apply capture_in_probes|]. split.
  - intros i r. rewrite read_in_probes, elem_of_seqZ.
    split; intros (? & ? & ?); repeat split; auto; lia.
  - intros Hn. by rewrite seqZ_nil.
Qed.

(** X10. Probing further indexes does not change what was found among the
first ones: for [n <= n'] the result for [n] is the start of the result
for [n'], what follows it are indexes from [n] on, and the capture calls
for [n] are the start of the capture calls for [n']. *)
Theorem probing_more_extends (w : Cameras) (n n' : Z) :
  0 <= n <= n' ->
  exists more calls,
    list_camera_indexes w n' = list_camera_indexes w n ++ more /\
    Forall (fun i => n <= i < n') more /\
    snd (list_camera_indexes_run w n') = snd (list_camera_indexes_run w n) ++ calls.
Proof.
  intros Hn. unfold list_camera_indexes, list_camera_indexes_run, range.
  rewrite !probe_loop_eq. cbn [fst snd].
  assert (Hsplit : seqZ 0 n' = seqZ 0 n ++ seqZ n (n' - n)).
  { replace (seqZ 0 n') with (seqZ 0 (n + (n' - n))) by (f_equal; lia).
    by rewrite seqZ_app by lia. }
  rewrite Hsplit.
  exists (filter (usable w) (seqZ n (n' - n))),
         (concat (map (probe_events w) (seqZ n (n' - n)))).
  split; [by rewrite filter_app|]. split.
  - apply Forall_forall. intros i Hi.
    apply list_elem_of_filter in Hi as [_ Hi]. apply elem_of_seqZ in Hi. lia.
  - by rewrite map_app, concat_app.
Qed.

Lemma probing_more_extends_witness :
  exists more calls,
    list_camera_indexes three_cameras 4 = list_camera_indexes three_cameras 1 ++ more /\
    Forall (fun i => 1 <= i < 4) more /\
    snd (list_camera_indexes_run three_cameras 4) =
      snd (list_camera_indexes_run three_cameras 1) ++ calls.
Proof. apply (probing_more_extends three_cameras 1 4). lia. Defined.
End ProbeTrace.

Section Platforms.
Import PyStr ListCameras NamesSpec CameraSpec ListSpec ListCamerasScript.

(** *** The enumerating loops of the Windows and macOS branches *)

Lemma enumerate_from (f : string -> option string) (l : list string) (k : Z) (s : NState) :
  for_each (zip (seqZ k (Z.of_nat (length l))) l)
           (fun '(i, name) => modify (set_name i (f name))) s =
    (inr tt,
     {| names := bind_from k (map f l) (names s); dev_name := dev_name s; out := out s |}).
Proof.
  revert k s; induction l as [|x l IH]; intros k s.
  - by destruct s.
  - cbn [length]. rewrite seqZ_cons by lia.
    replace (Z.pred (Z.of_nat (S (length l)))) with (Z.of_nat (length l)) by lia.
    cbn [zip zip_with for_each map bind_from]. unfold bind, modify.
    rewrite IH. cbn [set_name names dev_name out].
    by replace (Z.succ k) with (k + 1) by lia.
Qed.

Lemma lookup_bind_from (vals : list (option string)) (k i : Z) (m : gmap Z (option string)) :
  bind_from k vals m !! i =
    if decide (k <= i < k + Z.of_nat (length vals))
    then vals !! Z.to_nat (i - k)
    else m !! i.
Proof.
  revert k m; induction vals as [|v vals IH]; intros k m; cbn [bind_from length].
  - case_decide; [lia | done].
  - rewrite IH. case_decide as H1; case_decide as H2; try lia.
    + replace (Z.to_nat (i - k)) with (S (Z.to_nat (i - (k + 1)))) by lia. done.
    + assert (i = k) as -> by lia. rewrite lookup_insert_eq.
      by replace (Z.to_nat (k - k)) with 0%nat by lia.
    + rewrite lookup_insert_ne by lia. done.
Qed.

Lemma lookup_bind_nat (vals : list (option string)) (i : nat) :
  bind_from 0 vals ∅ !! Z.of_nat i = vals !! i.
Proof.
  rewrite lookup_bind_from. case_decide as H.
  - f_equal. lia.
  - rewrite lookup_empty. symmetry. apply lookup_ge_None. lia.
Qed.

Lemma lookup_bind_negative (vals : list (option string)) (i : Z) :
  i < 0 -> bind_from 0 vals ∅ !! i = None.
Proof.
  intros Hi. rewrite lookup_bind_from. case_decide; [lia|]. apply lookup_empty.
Qed.

Lemma windows_names_eq (h : Host) (devices : list string) :
  system h = "Windows" -> pygrabber_import h = inr tt -> input_devices h = inr devices ->
  get_camera_names h =
    (inr (bind_from 0 (map Some devices) ∅),
     {| names := bind_from 0 (map Some devices) ∅; dev_name := None; out := [] |}).
Proof.
  intros Hsys Himp Hdev.
  unfold get_camera_names, get_camera_names_body, try_except, bind.
  rewrite Hsys. cbn [String.eqb Ascii.eqb Bool.eqb].
  unfold windows_branch, try_except, bind, enumerate. rewrite Himp, Hdev.
  cbn [call pure].
  rewrite (enumerate_from Some devices 0 init). reflexivity.
Qed.

Lemma darwin_names_eq (h : Host) (text : string) :
  system h = "Darwin" ->
  subprocess_run h ["system_profiler"; "SPCameraDataType"] = inr text ->
  get_camera_names h =
    (let m := bind_from 0 (map (fun l => Some (remove_char ":" (strip l))) (camera_lines text)) ∅ in
     (inr m, {| names := m; dev_name := None; out := [] |})).
Proof.
  intros Hsys Hrun.
  unfold get_camera_names, get_camera_names_body, try_except, bind.
  rewrite Hsys. cbn [String.eqb Ascii.eqb Bool.eqb].
  unfold darwin_branch, bind, enumerate. rewrite Hrun. cbn [call pure].
  rewrite (enumerate_from (fun n => Some (remove_char ":" n))
             (map strip (List.filter (fun l => endswith (strip l) "Camera:") (splitlines text)))
             0 init).
  cbn [names dev_name out init]. unfold camera_lines. by rewrite map_map.
Qed.

Lemma remove_char_absent (c : ascii) (s : string) :
  contains (String c EmptyString) (remove_char c s) = false.
Proof.
  induction s as [|d s IH]; [done|]. cbn [remove_char].
  destruct (Ascii.eqb_spec c d) as [->|Hne]; [exact IH|].
  rewrite contains_cons, IH, prefix_cons.
  destruct (Ascii.ascii_dec c d); [done|]. done.
Qed.

(** X11. On Windows, when the device-graph library is there, index [i] is
bound to the [i]-th name the library lists, in its order; nothing else is
bound and nothing is printed. *)
Theorem windows_names_by_position (h : Host) (devices : list string) :
  system h = "Windows" -> pygrabber_import h = inr tt -> input_devices h = inr devices ->
  exists m,
    get_camera_names h = (inr m, {| names := m; dev_name := None; out := [] |}) /\
    (forall i : nat, m !! Z.of_nat i = Some <$> devices !! i) /\
    (forall i : Z, i < 0 -> m !! i = None).
Proof.
  intros Hsys Himp Hdev. eexists. split; [by apply windows_names_eq|]. split.
  - intros i. by rewrite lookup_bind_nat, list_lookup_fmap.
  - apply lookup_bind_negative.
Qed.

Lemma windows_names_by_position_witness :
  exists m,
    get_camera_names (windows_host ["HD Webcam"; "OBS Virtual Camera"]) =
      (inr m, {| names := m; dev_name := None; out := [] |}) /\
    m !! 1 = Some (Some "OBS Virtual Camera") /\ m !! 2 = None.
Proof.
  destruct (windows_names_by_position (windows_host ["HD Webcam"; "OBS Virtual Camera"])
              ["HD Webcam"; "OBS Virtual Camera"]) as (m & Hm & Hpos & _);
    [reflexivity | reflexivity | reflexivity |].
  exists m. split; [exact Hm|]. split; [exact (Hpos 1%nat) | exact (Hpos 2%nat)].
Defined.

(** X12. On macOS the lines of the profiler's output whose stripped text
ends with "Camera:" are numbered from 0 in the order they come, whatever
the device index of the camera is; each is bound stripped and with every
colon removed, so no name contains a colon.  The heading "Camera:" of the
output is such a line: it takes index 0 under the name "Camera". *)
Theorem darwin_names_by_position (h : Host) (text : string) :
  system h = "Darwin" ->
  subprocess_run h ["system_profiler"; "SPCameraDataType"] = inr text ->
  exists m,
    get_camera_names h = (inr m, {| names := m; dev_name := None; out := [] |}) /\
    (forall i : nat,
       m !! Z.of_nat i =
         (fun l => Some (remove_char ":" (strip l))) <$> camera_lines text !! i) /\
    (forall i : Z, i < 0 -> m !! i = None) /\
    (forall i name, m !! i = Some (Some name) -> contains ":" name = false) /\
    (forall rest, splitlines text = "Camera:" :: rest -> m !! 0 = Some (Some "Camera")).
Proof.
  intros Hsys Hrun. eexists. split; [by apply darwin_names_eq|].
  assert (Hpos : forall i : nat,
            bind_from 0 (map (fun l => Some (remove_char ":" (strip l))) (camera_lines text)) ∅
              !! Z.of_nat i =
            (fun l => Some (remove_char ":" (strip l))) <$> camera_lines text !! i).
  { intros i. by rewrite lookup_bind_nat, list_lookup_fmap. }
  split; [exact Hpos|]. split; [apply lookup_bind_negative|]. split.
  - intros i name Hi.
    destruct (Z.neg_nonneg_cases i) as [Hneg|Hnn].
    { by rewrite lookup_bind_negative in Hi. }
    rewrite <- (Z2Nat.id i Hnn), Hpos in Hi.
    destruct (camera_lines text !! Z.to_nat i) as [l|]; [|discriminate].
    injection Hi as <-. apply remove_char_absent.
  - intros rest Hlines. change 0 with (Z.of_nat 0). rewrite Hpos.
    unfold camera_lines. rewrite Hlines. reflexivity.
Qed.

Lemma darwin_names_by_position_witness :
  exists m,
    fst (get_camera_names (darwin_host profiler_text)) = inr m /\
    m !! 0 = Some (Some "Camera") /\
    m !! 1 = Some (Some "FaceTime HD Camera") /\
    m !! 2 = None.
Proof.
  destruct (darwin_names_by_position (darwin_host profiler_text) profiler_text)
    as (m & Hm & Hpos & _ & _ & Hhead); [reflexivity | reflexivity |].
  exists m. split; [by rewrite Hm|]. split; [by eapply Hhead|].
  split; [exact (Hpos 1%nat) | exact (Hpos 2%nat)].
Defined.
End Platforms.

Section LinuxNames.
Import PyStr ListCameras NamesSpec CameraSpec ListSpec ListCamerasScript.

Lemma linux_state_snoc (lines : list string) (l : string) :
  linux_state (lines ++ [l]) = after_line l (linux_state lines).
Proof. unfold linux_state. by rewrite fold_left_app. Qed.

Lemma header_before_all (lines : list string) :
  dev_name (linux_state lines) = header_before lines (length lines).
Proof.
  unfold header_before. rewrite firstn_all.
  induction lines as [|l lines IH] using rev_ind; [done|].
  rewrite linux_state_snoc, List.filter_app. unfold after_line.
  cbn [List.filter]. change (startswith l TAB) with (indented l).
  destruct (indented l); cbn [negb].
  - rewrite app_nil_r, <- IH. by destruct (path_index (strip l)).
  - by rewrite last_snoc.
Qed.

Lemma header_before_app (lines more : list string) (k : nat) :
  (k <= length lines)%nat -> header_before (lines ++ more) k = header_before lines k.
Proof. intros Hk. unfold header_before. by rewrite take_app_le. Qed.

Lemma last_path_line_bound (lines : list string) (idx : Z) (k : nat) :
  last_path_line lines idx k -> (k < length lines)%nat.
Proof. intros [(line & Hk & _) _]. by eapply lookup_lt_Some. Qed.

(** A line that binds nothing at [idx] leaves the last binding line of
[idx] where it was. *)
Lemma last_path_line_skip (lines : list string) (l : string) (idx : Z) (k : nat) :
  (indented l = true -> path_index (strip l) <> Some idx) ->
  last_path_line (lines ++ [l]) idx k <-> last_path_line lines idx k.
Proof.
  intros Hl. split.
  - intros [(line & Hk & Hi & Hp) Hlast].
    assert (Hlt : (k < length lines)%nat).
    { destruct (decide (k < length lines)%nat) as [|Hge]; [done|].
      rewrite lookup_app_r in Hk by lia.
      destruct (k - length lines)%nat; [|done]. cbn in Hk. injection Hk as ->.
      by destruct Hl. }
    rewrite lookup_app_l in Hk by done. split; [by exists line|].
    intros k' line' Hkk Hk'. apply (Hlast k' line' Hkk).
    rewrite lookup_app_l; [done | by eapply lookup_lt_Some].
  - intros [(line & Hk & Hi & Hp) Hlast]. split.
    + exists line. rewrite lookup_app_l by (by eapply lookup_lt_Some). done.
    + intros k' line' Hkk Hk'.
      destruct (decide (k' < length lines)%nat) as [Hlt|Hge].
      * rewrite lookup_app_l in Hk' by done. by apply (Hlast k' line').
      * rewrite lookup_app_r in Hk' by lia.
        destruct (k' - length lines)%nat; [|done]. cbn in Hk'. injection Hk' as <-.
        exact Hl.
Qed.

(** A line that binds [idx] is its last binding line. *)
Lemma last_path_line_here (lines : list string) (l : string) (idx : Z) (k : nat) :
  indented l = true -> path_index (strip l) = Some idx ->
  last_path_line (lines ++ [l]) idx k <-> k = length lines.
Proof.
  intros Hi Hp. split.
  - intros [(line & Hk & _) Hlast].
    assert (Hlt := lookup_lt_Some _ _ _ Hk). rewrite length_app in Hlt. cbn in Hlt.
    destruct (decide (k = length lines)) as [|Hne]; [done|].
    destruct (Hlast (length lines) l); try done; [lia|].
    rewrite lookup_app_r by lia. by rewrite Nat.sub_diag.
  - intros ->. split.
    + exists l. rewrite lookup_app_r by lia. by rewrite Nat.sub_diag.
    + intros k' line' Hkk Hk'. apply lookup_lt_Some in Hk'.
      rewrite length_app in Hk'. cbn in Hk'. lia.
Qed.

Lemma linux_state_names (lines : list string) (idx : Z) (v : option string) :
  names (linux_state lines) !! idx = Some v <->
  exists k, last_path_line lines idx k /\ v = header_before lines k.
Proof.
  revert v. induction lines as [|l lines IH] using rev_ind; intros v.
  - cbn. rewrite lookup_empty. split; [done|].
    intros (k & Hk & _). apply last_path_line_bound in Hk. cbn in Hk. lia.
  - rewrite linux_state_snoc. unfold after_line. fold (indented l).
    destruct (indented l) eqn:Hi; [destruct (path_index (strip l)) as [j|] eqn:Hp|].
    + cbn [set_name names]. destruct (decide (j = idx)) as [->|Hne].
      * rewrite lookup_insert_eq, header_before_all. split.
        -- intros [= <-]. exists (length lines). split; [by apply last_path_line_here|].
           by rewrite header_before_app.
        -- intros (k & Hk & ->). apply last_path_line_here in Hk; [|done..].
           subst k. by rewrite header_before_app.
      * rewrite lookup_insert_ne by done. rewrite IH.
        assert (Hskip : indented l = true -> path_index (strip l) <> Some idx)
          by (intros _; congruence).
        split; intros (k & Hk & ->); exists k.
        -- split; [by apply last_path_line_skip|].
           rewrite header_before_app; [done|]. apply last_path_line_bound in Hk. lia.
        -- apply last_path_line_skip in Hk; [|done]. split; [done|].
           rewrite header_before_app; [done|]. apply last_path_line_bound in Hk. lia.
    + rewrite IH.
      assert (Hskip : indented l = true -> path_index (strip l) <> Some idx)
        by (intros _; congruence).
      split; intros (k & Hk & ->); exists k.
      * split; [by apply last_path_line_skip|].
        rewrite header_before_app; [done|]. apply last_path_line_bound in Hk. lia.
      * apply last_path_line_skip in Hk; [|done]. split; [done|].
        rewrite header_before_app; [done|]. apply last_path_line_bound in Hk. lia.
    + cbn [set_dev_name names]. rewrite IH.
      assert (Hskip : indented l = true -> path_index (strip l) <> Some idx)
        by (intros; congruence).
      split; intros (k & Hk & ->); exists k.
      * split; [by apply last_path_line_skip|].
        rewrite header_before_app; [done|]. apply last_path_line_bound in Hk. lia.
      * apply last_path_line_skip in Hk; [|done]. split; [done|].
        rewrite header_before_app; [done|]. apply last_path_line_bound in Hk. lia.
Qed.

Lemma linux_state_quiet (lines : list string) : out (linux_state lines) = [].
Proof.
  induction lines as [|l lines IH] using rev_ind; [done|].
  rewrite linux_state_snoc. unfold after_line.
  destruct (startswith l TAB); [destruct (path_index (strip l))|]; exact IH.
Qed.

(** X13. On Linux, when the tool answers, an index is bound exactly when
some indented line of the stripped output is a device path with that
index, and its value is the stripped text of the nearest line above the
LAST such line that is not indented: of several lines with the same index
the last one wins, and a device's media or other nodes bind nothing.
Nothing is printed. *)
Theorem linux_names_attribution (h : Host) (text : string) :
  system h = "Linux" ->
  subprocess_run h ["v4l2-ctl"; "--list-devices"] = inr text ->
  exists m s,
    get_camera_names h = (inr m, s) /\ out s = [] /\
    forall idx v,
      m !! idx = Some v <->
      exists k, last_path_line (splitlines (strip text)) idx k /\
                v = header_before (splitlines (strip text)) k.
Proof.
  intros Hsys Hrun. rewrite (linux_names_eq h text Hsys Hrun). cbv zeta.
  fold (linux_state (splitlines (strip text))).
  eexists _, _. split; [reflexivity|].
  split; [apply linux_state_quiet | apply linux_state_names].
Qed.

Lemma linux_names_attribution_witness :
  exists m,
    fst (get_camera_names (linux_host v4l2_text)) = inr m /\
    m !! 1 = Some (Some "Integrated Camera (usb-0000:00:14.0-8):") /\
    m !! 2 = Some (Some "USB Webcam (usb-0000:00:14.0-2):") /\
    m !! 3 = None.
Proof.
  destruct (linux_names_attribution (linux_host v4l2_text) v4l2_text)
    as (m & s & Hm & _ & Hchar); [reflexivity | reflexivity |].
  exists m. split; [by rewrite Hm|]. split; [|split].
  - apply Hchar. exists 2%nat. split; [|by vm_compute]. split.
    + eexists. split; [by vm_compute|]. split; by vm_compute.
    + intros k' line' Hk Hl.
      do 3 (destruct k' as [|k']; [lia|]).
      do 4 (destruct k' as [|k']; [vm_compute in Hl; injection Hl as <-; by vm_compute|]).
      by vm_compute in Hl.
  - apply Hchar. exists 6%nat. split; [|by vm_compute]. split.
    + eexists. split; [by vm_compute|]. split; by vm_compute.
    + intros k' line' Hk Hl.
      do 7 (destruct k' as [|k']; [lia|]).
      by vm_compute in Hl.
  - destruct (m !! 3) as [v|] eqn:H3; [|done].
    apply Hchar in H3 as (k & [(line & Hk & Hi & Hp) _] & _).
    do 7 (destruct k as [|k];
          [vm_compute in Hk; injection Hk as <-; by vm_compute in Hi, Hp|]).
    by vm_compute in Hk.
Defined.
End LinuxNames.

Section Report.
Import PyStr ListCameras NamesSpec CameraSpec ListSpec ListCamerasScript.

Lemma bind_from_strings (k : Z) (l : list string) (f : string -> string)
      (m : gmap Z (option string)) :
  map_Forall (fun _ v => is_Some v) m ->
  map_Forall (fun _ v => is_Some v) (bind_from k (map (fun x => Some (f x)) l) m).
Proof.
  revert k m; induction l as [|x l IH]; intros k m Hm; [done|].
  cbn [map bind_from]. apply IH, map_Forall_insert_2; [by eexists | done].
Qed.

Lemma linux_outcome (h : Host) (text : string) :
  system h = "Linux" ->
  subprocess_run h ["v4l2-ctl"; "--list-devices"] = inr text ->
  exists m d,
    get_camera_names h = (inr m, {| names := m; dev_name := d; out := [] |}) /\
    map_Forall (fun _ v => is_Some v) m.
Proof.
  intros Hl Hrun. rewrite (linux_names_eq h text Hl Hrun). cbv zeta.
  fold (linux_state (splitlines (strip text))).
  exists (names (linux_state (splitlines (strip text)))),
         (dev_name (linux_state (splitlines (strip text)))).
  split; [|apply linux_values_are_strings].
  f_equal. rewrite <- (linux_state_quiet (splitlines (strip text))).
  by destruct (linux_state _).
Qed.

Lemma other_platform (h : Host) :
  system h <> "Windows" -> system h <> "Linux" -> system h <> "Darwin" ->
  get_camera_names h = (inr ∅, init).
Proof.
  intros Hw Hl Hd.
  unfold get_camera_names, get_camera_names_body, try_except, bind.
  destruct (String.eqb_spec (system h) "Windows"); [done|].
  destruct (String.eqb_spec (system h) "Linux"); [done|].
  destruct (String.eqb_spec (system h) "Darwin"); [done|]. reflexivity.
Qed.

(** The call made for the platform raises, or the function returns
without a note a mapping whose values are strings. *)
Lemma source_cases (h : Host) :
  (exists e, source_raises h e) \/
  (exists m d,
     get_camera_names h = (inr m, {| names := m; dev_name := d; out := [] |}) /\
     map_Forall (fun _ v => is_Some v) m /\
     (system h <> "Windows" -> system h <> "Linux" -> system h <> "Darwin" -> m = ∅)).
Proof.
  destruct (String.eqb_spec (system h) "Windows") as [Hw|Hw];
    [|destruct (String.eqb_spec (system h) "Linux") as [Hl|Hl];
      [|destruct (String.eqb_spec (system h) "Darwin") as [Hd|Hd]]].
  - destruct (pygrabber_import h) as [e|[]] eqn:Himp;
      [|destruct (input_devices h) as [e|devices] eqn:Hdev].
    + left. exists e. left. split; [done|]. by left.
    + left. exists e. left. split; [done|]. by right.
    + right. rewrite (windows_names_eq h devices Hw Himp Hdev).
      eexists _, _. split; [reflexivity|]. split; [|done].
      apply (bind_from_strings 0 devices id), map_Forall_empty.
  - destruct (subprocess_run h ["v4l2-ctl"; "--list-devices"]) as [e|text] eqn:Hrun.
    + left. exists e. right. left. by split.
    + right. destruct (linux_outcome h text Hl Hrun) as (m & d & Hm & Hs).
      exists m, d. by rewrite Hl.
  - destruct (subprocess_run h ["system_profiler"; "SPCameraDataType"]) as [e|text] eqn:Hrun.
    + left. exists e. right. right. by split.
    + right. rewrite (darwin_names_eq h text Hd Hrun). cbv zeta.
      eexists _, _. split; [reflexivity|]. split; [|done].
      apply (bind_from_strings 0 (camera_lines text) (fun l => remove_char ":" (strip l))),
        map_Forall_empty.
  - right. rewrite (other_platform h Hw Hl Hd).
    exists ∅, None. split; [reflexivity|]. split; [apply map_Forall_empty | done].
Qed.

(** Every value of a mapping the function returns is a string. *)
Lemma names_are_strings (h : Host) (names : gmap Z (option string)) :
  fst (get_camera_names h) = inr names -> map_Forall (fun _ v => is_Some v) names.
Proof.
  destruct (source_cases h) as [[e He] | (m & d & -> & Hm & _)].
  - rewrite (source_failure h e He).
    destruct (is_Exception (exc e)); [|discriminate].
    intros H. injection H as <-. apply map_Forall_empty.
  - intros H. by injection H as <-.
Qed.

(** An exception that leaves the function is one a call of the host
raised, it is no [Exception], and nothing was printed before it. *)
Lemma names_escape (h : Host) (e : exn) :
  fst (get_camera_names h) = inl e ->
  get_camera_names h = (inl e, init) /\ source_raises h e /\ is_Exception (exc e) = false.
Proof.
  destruct (source_cases h) as [[e' He] | (m & d & -> & _)]; [|discriminate].
  rewrite (source_failure h e' He).
  destruct (is_Exception (exc e')) eqn:Hc; [discriminate|].
  intros H. by injection H as <-.
Qed.

(** X14. [get_camera_names] prints at most one line.  When the calls of the
host raise nothing but [Exception]s it returns: with nothing printed when
the platform's source answered or the platform is none of the three; with
the tip, and nothing else, when the Windows branch raised an
[ImportError]; with the failure note and the error's message when a source
failed otherwise.  When a line is printed the mapping returned is empty: a
failure never leaves part of the names behind.  An exception of the host
that is no [Exception] leaves the function, with nothing printed. *)
Theorem names_or_one_note (h : Host) :
  ((forall e, source_raises h e -> is_Exception (exc e) = true) ->
   exists m s,
     get_camera_names h = (inr m, s) /\
     (out s = [] \/
      m = ∅ /\
      (out s = [tip] /\ system h = "Windows" /\
         (exists e, source_raises h e /\ exc e = ImportError) \/
       exists e, out s = [failure_note (exc_msg e)] /\ source_raises h e /\
         (system h = "Windows" -> exc e <> ImportError))) /\
     (system h <> "Windows" -> system h <> "Linux" -> system h <> "Darwin" ->
      m = ∅ /\ out s = [])) /\
  (forall e, source_raises h e -> is_Exception (exc e) = false ->
     get_camera_names h = (inl e, init)).
Proof.
  split.
  - intros Hok.
    destruct (source_cases h) as [[e He] | (m & d & -> & _ & Hother)].
    + rewrite (source_failure h e He), (Hok e He).
      eexists _, _. split; [reflexivity|]. cbn [out]. split.
      * right. split; [done|].
        destruct (String.eqb_spec (system h) "Windows") as [Hw|Hw]; cbn [andb].
        -- destruct (exc_class_eqb ImportError (exc e)) eqn:Hc.
           ++ left. split; [done|]. split; [done|]. exists e. split; [done|].
              by destruct (exc e).
           ++ right. exists e. split; [done|]. split; [done|].
              intros _ Heq. by rewrite Heq in Hc.
        -- right. exists e. by repeat split.
      * intros Hw Hl Hd. by destruct He as [[? _] | [[? _] | [? _]]].
    + eexists _, _. split; [reflexivity|]. cbn [out]. split; [by left|]. auto.
  - intros e He Hc. by rewrite (source_failure h e He), Hc.
Qed.

Lemma report_rows (available : list Z) (m : gmap Z (option string)) :
  map_Forall (fun _ v => is_Some v) m ->
  forall k idx, available !! k = Some idx ->
    exists name,
      report available m !! S k = Some ("  Index " +:+ str idx +:+ ": " +:+ name) /\
      (m !! idx = Some (Some name) \/ m !! idx = None /\ name = "(unknown name)").
Proof.
  intros Hm k idx Hk. unfold report.
  destruct available as [|a rest] eqn:Ha; [done|]. rewrite <- Ha in *.
  rewrite lookup_cons. rewrite list_lookup_fmap, Hk. cbn [fmap option_fmap option_map].
  unfold cam_name.
  destruct (m !! idx) as [[name|]|] eqn:Hidx.
  - exists name. split; [done | by left].
  - apply Hm in Hidx. by destruct Hidx.
  - exists "(unknown name)". split; [done | by right].
Qed.

(** X15. The script has no handler: an exception that leaves
[list_camera_indexes] ends the run before [get_camera_names] is called,
and one that leaves [get_camera_names] ends it as well, in both cases
with nothing printed.  When both return, the run prints the note of
[get_camera_names], if any, and then either the one line "No cameras
found.", exactly when none of the indexes 0 to 9 is usable, or the line
"Detected cameras:" followed by one line per usable index among 0 to 9,
in increasing order, each giving the index and the name bound to it or
"(unknown name)" when none is; an index of 10 or more is never reported,
and the text "None" never stands for a name. *)
Theorem script_report (w : Cameras) (faults : Faults) (h : Host) :
  (forall e, fst (list_camera_indexes_on w faults 10) = inl e ->
     script w faults h = (inl e, [])) /\
  (forall available e,
     fst (list_camera_indexes_on w faults 10) = inr available ->
     fst (get_camera_names h) = inl e ->
     script w faults h = (inl e, [])) /\
  (forall available names,
     fst (list_camera_indexes_on w faults 10) = inr available ->
     fst (get_camera_names h) = inr names ->
     exists body,
       script w faults h = (inr tt, out (snd (get_camera_names h)) ++ body) /\
       available = filter (usable w) (seqZ 0 10) /\
       ((forall i, 0 <= i < 10 -> ~ usable w i) <-> body = ["No cameras found."]) /\
       (forall i, 0 <= i < 10 -> usable w i ->
          exists rows,
            body = "Detected cameras:" :: rows /\
            length rows = length available /\
            forall k idx, available !! k = Some idx ->
              exists name,
                rows !! k = Some ("  Index " +:+ str idx +:+ ": " +:+ name) /\
                (names !! idx = Some (Some name) \/
                 names !! idx = None /\ name = "(unknown name)"))).
Proof.
  split; [|split].
  - intros e He. unfold script.
    destruct (list_camera_indexes_on w faults 10) as [[e'|l] tr]; [|discriminate].
    by injection He as ->.
  - intros available e Hav He. unfold script.
    destruct (list_camera_indexes_on w faults 10) as [[e'|l] tr]; [discriminate|].
    destruct (names_escape h e He) as (-> & _). reflexivity.
  - intros available m Hav Hnames.
    pose proof (names_are_strings h m Hnames) as Hm.
    pose proof (list_camera_indexes_on_returns w faults 10 available Hav) as Hfilter.
    exists (report available m). split; [|split; [exact Hfilter|]].
    { unfold script.
      destruct (list_camera_indexes_on w faults 10) as [[e'|l] tr]; [discriminate|].
      cbn [fst] in Hav. injection Hav as ->.
      destruct (get_camera_names h) as [[e'|m'] s]; [discriminate|].
      cbn [fst snd] in *. by injection Hnames as ->. }
    split.
    + split.
      * intros Hnone.
        assert (Hnil : available = []).
        { destruct available as [|i l] eqn:Hf; [done|].
          assert (Hi : i ∈ filter (usable w) (seqZ 0 10))
            by (rewrite <- Hfilter; apply list_elem_of_here).
          apply list_elem_of_filter in Hi as [Hu Hi]. apply elem_of_seqZ in Hi.
          destruct (Hnone i); [lia | done]. }
        by rewrite Hnil.
      * intros Hbody i Hi Hu.
        assert (Hin : i ∈ available).
        { rewrite Hfilter. apply list_elem_of_filter. split; [done|]. apply elem_of_seqZ. lia. }
        unfold report in Hbody.
        destruct available; [by apply elem_of_nil in Hin | done].
    + intros i Hi Hu.
      assert (Hin : i ∈ available).
      { rewrite Hfilter. apply list_elem_of_filter. split; [done|]. apply elem_of_seqZ. lia. }
      exists (map (fun idx => "  Index " +:+ str idx +:+ ": " +:+ format_name (cam_name m idx))
                  available).
      split; [|split].
      * unfold report. destruct available; [by apply elem_of_nil in Hin | reflexivity].
      * by rewrite length_map.
      * intros k idx Hk.
        destruct (report_rows _ m Hm k idx Hk) as (name & Hrow & Hname).
        exists name. split; [|done].
        unfold report in Hrow.
        destruct available; [done|]. exact Hrow.
Qed.
End Report.
